(** * Dutch greenhouse-gas emissions dashboard ([app.py])

    A shallow embedding of the data pipeline of [app.py]:
    [get_emission_data], [compute_average] and [interpret_data], together
    with the parts of the Python run-time they rely on (insertion-ordered
    dictionaries, binary64 floats, [statistics.mean], the ['.1f'] format,
    decoded JSON values and the exceptions that can escape). *)

From Stdlib Require Import ZArith List String Ascii Bool Lia.
From Stdlib Require Import QArith Qreduction Qabs.
From Stdlib Require Import DecimalString.
From Stdlib Require Import SpecFloat.
From Stdlib Require Import Permutation Lqa.
Import ListNotations.

Local Open Scope string_scope.
Local Open Scope list_scope.
Local Open Scope Z_scope.

(** ** Exceptions

    Only the exception classes that the modelled code can raise. *)

Inductive exn : Type :=
| KeyError
| TypeError
| AttributeError
| OverflowError
| StatisticsError.

Inductive result (A : Type) : Type :=
| Ok (a : A)
| Raise (e : exn).

Arguments Ok {A} a.
Arguments Raise {A} e.

Definition bind {A B : Type} (r : result A) (k : A -> result B) : result B :=
  match r with
  | Ok a => k a
  | Raise e => Raise e
  end.

Notation "x <- r ;; k" := (bind r (fun x => k))
  (at level 61, r at next level, right associativity).

(** ** Python dictionaries

    A [dict] keeps its entries in insertion order and holds each key once.
    Keys are compared with the equality test the dictionary is given
    (Python's [==] on the key type). *)

Module PyDict.
Section Dict.
Context {K V : Type}.
Variable eqb : K -> K -> bool.

Definition dict : Type := list (K * V).

(** [d[k]], [None] standing for a missing key. *)
Fixpoint lookup (d : dict) (k : K) : option V :=
  match d with
  | [] => None
  | (k', v) :: rest => if eqb k' k then Some v else lookup rest k
  end.

(** [d.get(k, default)] *)
Definition get (d : dict) (k : K) (default : V) : V :=
  match lookup d k with
  | Some v => v
  | None => default
  end.

(** [d[k] = v]: an existing key keeps its place (and its key object),
    a new key goes last. *)
Fixpoint set (d : dict) (k : K) (v : V) : dict :=
  match d with
  | [] => [(k, v)]
  | (k', v') :: rest =>
      if eqb k' k then (k', v) :: rest else (k', v') :: set rest k v
  end.

Definition keys (d : dict) : list K := map fst d.
Definition values (d : dict) : list V := map snd d.
Definition items (d : dict) : list (K * V) := d.

(** [k in d] *)
Definition mem (d : dict) (k : K) : bool :=
  match lookup d k with
  | Some _ => true
  | None => false
  end.

(** No two entries have keys that the equality test identifies. *)
Fixpoint wf (d : dict) : Prop :=
  match d with
  | [] => True
  | (k, _) :: rest => lookup rest k = None /\ wf rest
  end.
End Dict.
Arguments dict K V : clear implicits.
End PyDict.

(** A dictionary with [str] keys. *)
Definition sdict (V : Type) : Type := PyDict.dict string V.

(** ** Python floats

    A Python [float] is an IEEE 754 binary64 value: a [spec_float] that is
    [valid_binary] for precision 53 and maximal exponent 1024. *)

Module PyFloat.

Definition prec : Z := 53.
Definition emax : Z := 1024.

Definition float : Type := spec_float.

Definition valid (x : float) : bool := valid_binary prec emax x.

Definition is_finite (x : float) : bool :=
  match x with
  | S754_zero _ | S754_finite _ _ _ => true
  | _ => false
  end.

Definition is_nan (x : float) : bool :=
  match x with
  | S754_nan => true
  | _ => false
  end.

(** The literal [0.0]. *)
Definition zero : float := S754_zero false.

(** [float(z)] for an integer in range, used to write literals. *)
Definition of_Z (z : Z) : float := binary_normalize prec emax z 0 false.

(** [x > y], [x == y] *)
Definition gt (x y : float) : bool := SFltb y x.
Definition eqb (x y : float) : bool := SFeqb x y.

(** The integer nearest to [num / den] ([den > 0], [num >= 0]), a tie
    going to the even neighbour. *)
Definition round_half_even (num den : Z) : Z :=
  let q := num / den in
  let r := num mod den in
  match 2 * r ?= den with
  | Lt => q
  | Gt => q + 1
  | Eq => if Z.even q then q else q + 1
  end.

(** The magnitude of a finite float counted in tenths, correctly rounded:
    the digits that ['.1f'] prints. *)
Definition tenths (m : positive) (e : Z) : Z :=
  match e with
  | Zneg p => round_half_even (10 * Zpos m) (2 ^ Zpos p)
  | _ => 10 * Zpos m * 2 ^ e
  end.

Definition decimal (z : Z) : string :=
  NilEmpty.string_of_uint (N.to_uint (Z.to_N z)).

Definition sign_str (s : bool) : string := if s then "-" else EmptyString.

(** [format(x, '.1f')] *)
Definition format_1f (x : float) : string :=
  match x with
  | S754_nan => "nan"
  | S754_infinity s => sign_str s ++ "inf"
  | S754_zero s => sign_str s ++ "0.0"
  | S754_finite s m e =>
      let t := tenths m e in
      sign_str s ++ decimal (t / 10) ++ "." ++ decimal (t mod 10)
  end.

End PyFloat.

Import PyFloat.


(** ** [statistics.mean] on floats

    [statistics.mean] adds the values exactly, as fractions, divides the
    exact total by the count and converts the quotient to a float once,
    with [float(Fraction)], which is correctly rounded integer division.
    A value that is infinite or a NaN has no exact ratio: such values are
    added apart as floats, and their sum is the result. *)

Module Statistics.

(** [x.as_integer_ratio()] of a finite float, as a fraction. *)
Definition exact_value (x : float) : Q :=
  match x with
  | S754_finite s m e =>
      match e with
      | Zneg p => cond_Zopp s (Zpos m) # (2 ^ p)
      | _ => (cond_Zopp s (Zpos m) * 2 ^ e) # 1
      end
  | _ => 0
  end.

(** [a / b] on positive integers with a float result, as CPython
    computes it: the exact quotient is rounded once, to nearest with ties
    to even, and a quotient beyond the largest float raises
    [OverflowError].  The quotient is taken in units of [2 ^ -1074], the
    spacing of the smallest floats: the binary logarithm [lg] of its
    integer part places it in a binade, [fexp] gives the exponent [ex] of
    the floats of that binade (-1074 below the normal range), and the
    mantissa is the quotient in units of [2 ^ ex], rounded. *)
Definition true_divide (s : bool) (a b : positive) : result float :=
  let lg := Z.log2 (Zpos a * 2 ^ 1074 / Zpos b) - 1074 in
  let ex := fexp prec emax (lg + 1) in
  let m := round_half_even (Zpos a * 2 ^ 1074) (Zpos b * 2 ^ (ex + 1074)) in
  let '(m, ex) := if (m =? 2 ^ prec)%Z then (2 ^ (prec - 1), ex + 1) else (m, ex) in
  match m with
  | Zpos p =>
      if (ex <=? emax - prec)%Z then Ok (S754_finite s p ex)
      else Raise OverflowError
  | _ => Ok (S754_zero s)
  end.

(** [float(Fraction(q))]; a [Fraction] is kept in lowest terms. *)
Definition float_of_fraction (q : Q) : result float :=
  let q := Qred q in
  match Qnum q with
  | Z0 => Ok zero
  | Zpos a => true_divide false a (Qden q)
  | Zneg a => true_divide true a (Qden q)
  end.

(** The two partial sums of [_sum]: the exact total of the finite values
    and the float total of the others ([None] while there is none). *)
Definition partial_sums : Type := Q * option float.

Definition add_value (acc : partial_sums) (x : float) : partial_sums :=
  let '(exact, special) := acc in
  if is_finite x then (exact + exact_value x, special)%Q
  else
    (exact,
     Some match special with
          | None => x
          | Some t => SFadd prec emax t x
          end).

Definition sum (values : list float) : partial_sums :=
  fold_left add_value values (0%Q, None).

(** [statistics.mean(values)] *)
Definition mean (values : list float) : result float :=
  match values with
  | [] => Raise StatisticsError
  | _ =>
      match sum values with
      | (_, Some t) => Ok t
      | (total, None) =>
          float_of_fraction (total / inject_Z (Z.of_nat (List.length values)))
      end
  end.

End Statistics.

(** ** Decoded JSON

    What [json.loads] hands back: [None], [bool], [int], [float], [str],
    [list] and [dict] (its keys are strings). *)

#[warnings="-register-all"]
Inductive json : Type :=
| JNull
| JBool (b : bool)
| JInt (z : Z)
| JFloat (x : float)
| JStr (s : string)
| JArr (l : list json)
| JObj (o : list (string * json)).

Module PyObject.

(** The decoded values that can be hashed, and so be keys of a dict. *)
Inductive key : Type :=
| KNone
| KBool (b : bool)
| KInt (z : Z)
| KFloat (x : float)
| KStr (s : string).

(** Using [j] as a key: lists and dicts are unhashable. *)
Definition hash (j : json) : result key :=
  match j with
  | JNull => Ok KNone
  | JBool b => Ok (KBool b)
  | JInt z => Ok (KInt z)
  | JFloat x => Ok (KFloat x)
  | JStr s => Ok (KStr s)
  | JArr _ | JObj _ => Raise TypeError
  end.

Definition int_of_bool (b : bool) : Z := if b then 1 else 0.

(** [x == z] for a float and an integer: Python compares the exact values. *)
Definition float_eq_int (x : float) (z : Z) : bool :=
  match x with
  | S754_zero _ => (z =? 0)%Z
  | S754_finite s m e =>
      match e with
      | Zneg p => (cond_Zopp s (Zpos m) =? z * 2 ^ Zpos p)%Z
      | _ => (cond_Zopp s (Zpos m) * 2 ^ e =? z)%Z
      end
  | _ => false
  end.

(** Key comparison of a dict: [a is b or a == b].  [bool] is a subtype of
    [int] and numbers compare by value; the decoder hands out one shared
    NaN object, which the identity test finds. *)
Definition key_eqb (a b : key) : bool :=
  match a, b with
  | KNone, KNone => true
  | KStr s, KStr t => String.eqb s t
  | KBool x, KBool y => Bool.eqb x y
  | KBool x, KInt z | KInt z, KBool x => (int_of_bool x =? z)%Z
  | KInt x, KInt y => (x =? y)%Z
  | KBool b, KFloat x | KFloat x, KBool b => float_eq_int x (int_of_bool b)
  | KInt z, KFloat x | KFloat x, KInt z => float_eq_int x z
  | KFloat x, KFloat y => PyFloat.eqb x y || (is_nan x && is_nan y)
  | _, _ => false
  end.

(** A key that holds a float holds a binary64 value. *)
Definition valid_key (k : key) : bool :=
  match k with
  | KFloat x => valid x
  | _ => true
  end.

(** [j == s] for a string literal [s]. *)
Definition eq_str (j : json) (s : string) : bool :=
  match j with
  | JStr t => String.eqb t s
  | _ => false
  end.

Definition single (c : ascii) : json := JStr (String c EmptyString).

(** [for item in j]: the items a [for] loop visits, or [TypeError] when
    [j] is not iterable.  A dict yields its keys and a string its
    characters, each a string of length one. *)
Definition iterate (j : json) : result (list json) :=
  match j with
  | JArr l => Ok l
  | JObj o => Ok (map JStr (PyDict.keys o))
  | JStr s => Ok (map single (list_ascii_of_string s))
  | _ => Raise TypeError
  end.

End PyObject.

Import PyObject.

(** ** The statistics provider, as [requests] shows it

    [requests.get(url)] either raises (no connection, time-out, ...) or
    returns a response with a status code and a body; [body] is the value
    that [response.json()] decodes, [None] when decoding raises. *)

Inductive response : Type :=
| NoResponse
| Response (status_code : Z) (body : option json).

Definition provider : Type := string -> response.

(** [response.raise_for_status()] raises for a 4xx or 5xx status. *)
Definition raise_for_status (status_code : Z) : bool :=
  (400 <=? status_code)%Z && (status_code <? 600)%Z.

(** ** [app.py] *)

Module App.

Definition base_url : string :=
  "https://opendata.cbs.nl/ODataApi/odata/84979NED".

Definition categories : sdict string :=
  [ ("total", "T001372");
    ("CO2", "A044109");
    ("other", "A050122") ].

Definition sectors : sdict string :=
  [ ("A050123", "Industrie");
    ("A050124", "Elektriciteit");
    ("A050125", "Mobiliteit");
    ("A050126", "Landbouw");
    ("A050127", "Gebouwde omgeving");
    ("A052138", "Landgebruik") ].

(** The code of the row that totals all sectors. *)
Definition total_row : string := "T001616".

Definition query (period category_key : string) : string :=
  base_url ++ "/TypedDataSet?"
  ++ "$filter=(Perioden%20eq%20'" ++ period
  ++ "')%20and%20(Emissies%20eq%20'" ++ category_key ++ "')"
  ++ "&$select=Klimaatsector,EmissieBroeikasgassen_1&$format=json".

(** The [try] block: [requests.get], [raise_for_status], [.json()] and
    [.get("value", [])], any exception giving the empty list.  A decoded
    body that is not a dict has no [get] and ends there too. *)
Definition fetch (api : provider) (url : string) : json :=
  match api url with
  | NoResponse => JArr []
  | Response status_code body =>
      if raise_for_status status_code then JArr []
      else
        match body with
        | Some (JObj o) => PyDict.get String.eqb o "value" (JArr [])
        | _ => JArr []
        end
  end.

(** The emissions of one call: sector name to category name to value. *)
Definition emissions : Type := PyDict.dict key (sdict json).

(** [item.get("Klimaatsector")] and
    [item.get("EmissieBroeikasgassen_1", 0.0)] on a record. *)
Definition sector_key_of (o : sdict json) : json :=
  PyDict.get String.eqb o "Klimaatsector" JNull.

Definition value_of (o : sdict json) : json :=
  PyDict.get String.eqb o "EmissieBroeikasgassen_1" (JFloat zero).

(** [sectors.get(sector_key, sector_key)]; an unhashable key raises. *)
Definition sector_name_for (sector_key : json) : result key :=
  k <- hash sector_key ;;
  match k with
  | KStr code =>
      match PyDict.lookup String.eqb sectors code with
      | Some name => Ok (KStr name)
      | None => Ok k
      end
  | _ => Ok k
  end.

(** [results.setdefault(sector_name, {})[category_name] = value] *)
Definition store (results : emissions) (sector_name : key)
    (category_name : string) (value : json) : emissions :=
  let inner := PyDict.get key_eqb results sector_name [] in
  PyDict.set key_eqb results sector_name
    (PyDict.set String.eqb inner category_name value).

(** One turn of the inner loop.  [item.get] exists on a dict only. *)
Definition record (category_name : string) (results : emissions)
    (item : json) : result emissions :=
  match item with
  | JObj o =>
      let sector_key := sector_key_of o in
      if eq_str sector_key total_row then Ok results
      else
        sector_name <- sector_name_for sector_key ;;
        Ok (store results sector_name category_name (value_of o))
  | _ => Raise AttributeError
  end.

Fixpoint records (category_name : string) (results : emissions)
    (data : list json) : result emissions :=
  match data with
  | [] => Ok results
  | item :: rest =>
      results' <- record category_name results item ;;
      records category_name results' rest
  end.

(** One turn of the outer loop. *)
Definition category (api : provider) (period : string) (results : emissions)
    (entry : string * string) : result emissions :=
  let '(category_name, category_key) := entry in
  let data := fetch api (query period category_key) in
  items <- iterate data ;;
  records category_name results items.

Fixpoint category_loop (api : provider) (period : string)
    (results : emissions) (entries : list (string * string))
    : result emissions :=
  match entries with
  | [] => Ok results
  | entry :: rest =>
      results' <- category api period results entry ;;
      category_loop api period results' rest
  end.

Definition get_emission_data (api : provider) (period : string)
    : result emissions :=
  category_loop api period [] (PyDict.items categories).

(** Emissions as the annotations of [compute_average] and [interpret_data]
    have them: [Dict[str, Dict[str, float]]]. *)
Definition sector_emissions : Type := sdict (sdict float).

Definition compute_average (data : sector_emissions) (category : string)
    : result float :=
  let values :=
    map (fun vals => PyDict.get String.eqb vals category zero)
        (PyDict.values data) in
  match values with
  | [] => Ok zero
  | _ => Statistics.mean values
  end.

(** The f-string of [interpret_data].  The backslash at the end of its
    second line joins the next source line to the literal, indentation
    included. *)
Definition action_text (sector : string) (total average : float) : string :=
  "De sector " ++ sector ++ " stoot " ++ format_1f total
  ++ " Mt CO₂-equivalent uit, wat boven "
  ++ "het gemiddelde van " ++ format_1f average
  ++ " Mt ligt. Controleer grote "
  ++ "                installaties en voer aanvullende reductiemaatregelen uit.".

Fixpoint interpret_loop (averages : sdict float) (actions : sdict string)
    (items : list (string * sdict float)) : result (sdict string) :=
  match items with
  | [] => Ok actions
  | (sector, vals) :: rest =>
      let total := PyDict.get String.eqb vals "total" zero in
      if gt total (PyDict.get String.eqb averages "total" zero) then
        match PyDict.lookup String.eqb averages "total" with
        | Some average =>
            interpret_loop averages
              (PyDict.set String.eqb actions sector
                 (action_text sector total average))
              rest
        | None => Raise KeyError
        end
      else interpret_loop averages actions rest
  end.

Definition interpret_data (data : sector_emissions) (averages : sdict float)
    : result (sdict string) :=
  interpret_loop averages [] (PyDict.items data).

End App.

Import App.

(** ** Notions of the specification *)

Module Spec.

(** The total of a sector and the baseline of the totals, [0.0] standing
    for a missing entry. *)
Definition total_of (vals : sdict float) : float :=
  PyDict.get String.eqb vals "total" zero.

Definition baseline_of (averages : sdict float) : float :=
  PyDict.get String.eqb averages "total" zero.

(** The classification of a sector: strictly above the baseline. *)
Definition above_baseline (averages : sdict float) (vals : sdict float) : bool :=
  gt (total_of vals) (baseline_of averages).

(** [results.get(name, {}).get(category_name)]: the value of a sector for
    a category, [None] when there is none. *)
Definition entry (results : emissions) (name : key) (category_name : string)
    : option json :=
  match PyDict.lookup key_eqb results name with
  | Some inner => PyDict.lookup String.eqb inner category_name
  | None => None
  end.

(** The sector name under which a record is stored: [None] for the row of
    totals and for an item that cannot be stored. *)
Definition record_name (item : json) : option key :=
  match item with
  | JObj o =>
      if eq_str (sector_key_of o) total_row then None
      else
        match sector_name_for (sector_key_of o) with
        | Ok name => Some name
        | Raise _ => None
        end
  | _ => None
  end.

Definition record_value (item : json) : json :=
  match item with
  | JObj o => value_of o
  | _ => JNull
  end.

(** The value of the last record of [items] stored under [name]. *)
Fixpoint last_value (items : list json) (name : key) : option json :=
  match items with
  | [] => None
  | item :: rest =>
      match last_value rest name with
      | Some v => Some v
      | None =>
          match record_name item with
          | Some k => if key_eqb k name then Some (record_value item) else None
          | None => None
          end
      end
  end.

(** A record that the loop can take: a dict whose sector code is the row
    of totals or hashable. *)
Definition storable (item : json) : bool :=
  match item with
  | JObj o =>
      eq_str (sector_key_of o) total_row
      || match hash (sector_key_of o) with
         | Ok _ => true
         | Raise _ => false
         end
  | _ => false
  end.

(** Data that the loop can take: iterable, every item storable. *)
Definition well_shaped (data : json) : bool :=
  match iterate data with
  | Ok items => forallb storable items
  | Raise _ => false
  end.

(** A request that ends in the [except] branch: no response, a 4xx or 5xx
    status, a body that is not JSON, or JSON that is not an object. *)
Definition failed (r : response) : bool :=
  match r with
  | NoResponse => true
  | Response status_code body =>
      raise_for_status status_code
      || match body with
         | Some (JObj _) => false
         | _ => true
         end
  end.

(** Decoded floats are binary64 values. *)
Fixpoint valid_json (j : json) : bool :=
  match j with
  | JFloat x => valid x
  | JArr l => forallb valid_json l
  | JObj o => forallb (fun kv => valid_json (snd kv)) o
  | _ => true
  end.

Definition valid_provider (api : provider) : Prop :=
  forall url status_code j,
    api url = Response status_code (Some j) -> valid_json j = true.

(** The records that the loop visits for a category: the items of the
    data fetched for its key (none when the data cannot be iterated). *)
Definition items_of (api : provider) (period category_key : string)
    : list json :=
  match iterate (fetch api (query period category_key)) with
  | Ok items => items
  | Raise _ => []
  end.

(** The value of a sector for a category, [0.0] when the sector has
    none. *)
Definition sector_value (data : sector_emissions) (category sector : string)
    : float :=
  match PyDict.lookup String.eqb data sector with
  | Some vals => PyDict.get String.eqb vals category zero
  | None => zero
  end.

(** The arithmetic mean of a category over the sector keys of the data,
    as a rational number. *)
Definition arithmetic_mean (data : sector_emissions) (category : string) : Q :=
  fold_right Qplus 0%Q
    (map (fun sector =>
            Statistics.exact_value (sector_value data category sector))
       (PyDict.keys data))
  / inject_Z (Z.of_nat (List.length (PyDict.keys data))).

(** [r] is a float closest to the rational [q]. *)
Definition nearest (r : float) (q : Q) : Prop :=
  forall y : float, valid y = true -> is_finite y = true ->
    (Qabs (Statistics.exact_value r - q)
     <= Qabs (Statistics.exact_value y - q))%Q.

End Spec.

(** ** Examples *)

(** A few float literals. *)
Definition one : float := Eval vm_compute in of_Z 1.
Definition two : float := Eval vm_compute in of_Z 2.
Definition three : float := Eval vm_compute in of_Z 3.
Definition four : float := Eval vm_compute in of_Z 4.
Definition five : float := Eval vm_compute in of_Z 5.
Definition six : float := Eval vm_compute in of_Z 6.
Definition seven : float := Eval vm_compute in of_Z 7.
Definition ten : float := Eval vm_compute in of_Z 10.
Definition one_hundred_fifty : float := Eval vm_compute in of_Z 150.

(** The example of the specification: two sectors and the baseline [7.0]
    of their totals. *)
Definition example_data : sector_emissions :=
  [ ("Industrie", [("total", ten); ("CO2", six); ("other", four)]);
    ("Mobiliteit", [("total", four); ("CO2", three); ("other", one)]) ].

Definition example_averages : sdict float := [("total", seven)].

Definition example_actions : sdict string :=
  [ ("Industrie",
     "De sector Industrie stoot 10.0 Mt CO₂-equivalent uit, wat boven het gemiddelde van 7.0 Mt ligt. Controleer grote                 installaties en voer aanvullende reductiemaatregelen uit.") ].

(** Two records for one sector, the second with a null value, in the
    answer to the query for the totals; the other queries fail. *)
Definition example_payload : json :=
  JObj [("value",
         JArr [ JObj [("Klimaatsector", JStr "T001616");
                      ("EmissieBroeikasgassen_1", JFloat one_hundred_fifty)];
                JObj [("Klimaatsector", JStr "A050123");
                      ("EmissieBroeikasgassen_1", JFloat ten)];
                JObj [("Klimaatsector", JStr "X999");
                      ("EmissieBroeikasgassen_1", JFloat three)];
                JObj [("Klimaatsector", JStr "A050123");
                      ("EmissieBroeikasgassen_1", JNull)];
                JObj [("Klimaatsector", JStr "A050126")] ])].

Definition example_api : provider :=
  fun url =>
    if String.eqb url (query "2024JJ00" "T001372")
    then Response 200 (Some example_payload)
    else if String.eqb url (query "2024JJ00" "A044109")
    then Response 503 None
    else NoResponse.

(** A provider that answers every query with [{"value": null}]. *)
Definition null_api : provider :=
  fun _ => Response 200 (Some (JObj [("value", JNull)])).

Definition example_results : emissions :=
  [ (KStr "Industrie", [("total", JNull)]);
    (KStr "X999", [("total", JFloat three)]);
    (KStr "Landbouw", [("total", JFloat zero)]) ].

(** The float [0.1], and three sectors with that value for a category. *)
Definition tenth : float := S754_finite false 7205759403792794 (-56).

Definition constant_data : sector_emissions :=
  [ ("Industrie", [("CO2", tenth)]);
    ("Landbouw", [("CO2", tenth); ("total", two)]);
    ("Mobiliteit", [("other", one); ("CO2", tenth)]) ].


(** ** Values behind floats and keys *)

Definition is_zero (x : float) : bool :=
  match x with
  | S754_zero _ => true
  | _ => false
  end.

(** The value of a finite float in units of [2 ^ -1074], the spacing of
    the smallest floats: an integer for every valid float. *)
Definition scaled (x : float) : Z :=
  match x with
  | S754_finite s m e => cond_Zopp s (Zpos m * 2 ^ (e + 1074))
  | _ => 0
  end.

(** What a key stands for: keys are equal as dict keys exactly when they
    stand for the same thing. *)
Inductive meaning : Type :=
| MNone
| MStr (s : string)
| MNum (units : Z)
| MInf (s : bool)
| MNaN.

Definition denote (k : key) : meaning :=
  match k with
  | KNone => MNone
  | KStr s => MStr s
  | KBool b => MNum (int_of_bool b * 2 ^ 1074)
  | KInt z => MNum (z * 2 ^ 1074)
  | KFloat x =>
      match x with
      | S754_nan => MNaN
      | S754_infinity s => MInf s
      | _ => MNum (scaled x)
      end
  end.

(** Invariants of the emissions under construction: keys that hold
    binary64 floats, and no key twice, in the outer and in the inner
    dicts. *)
Definition valid_keys (results : emissions) : Prop :=
  Forall (fun k => valid_key k = true) (PyDict.keys results).

Definition unique (results : emissions) : Prop :=
  PyDict.wf key_eqb results /\
  forall name inner, In (name, inner) results -> PyDict.wf String.eqb inner.

(** The largest float, in units of [2 ^ -1074]. *)
Definition max_units : Z := (2 ^ 53 - 1) * 2 ^ 2045.

(** A rational between the least and the largest float. *)
Definition in_range (q : Q) : Prop :=
  (Qabs q * inject_Z (2 ^ 1074) <= inject_Z max_units)%Q.

(** The exact sum of floats, as [statistics._sum] forms it. *)
Definition exact_sum (values : list float) : Q :=
  fold_right Qplus 0%Q (map Statistics.exact_value values).

(** The largest float, as a rational. *)
Definition max_value : Q := (inject_Z max_units / inject_Z (2 ^ 1074))%Q.

(** The keys of a dict all satisfy [P]. *)
Definition keys_in {K V : Type} (P : K -> Prop) (d : PyDict.dict K V) : Prop :=
  Forall P (PyDict.keys d).


(** ** The map and the page ([create_map], [main])

    [folium] and [streamlit] are seen through the calls made to them: a
    map is its constructor arguments and the markers added to it, a page
    the elements written to it. *)

Module Dashboard.

(** [x <= y] *)
Definition le (x y : float) : bool := SFleb x y.

(** [d[k]], raising [KeyError] for a missing key. *)
Definition getitem {V : Type} (d : sdict V) (k : string) : result V :=
  match PyDict.lookup String.eqb d k with
  | Some v => Ok v
  | None => Raise KeyError
  end.

(** The literals [52.2], [5.3] and [0.7]: the floats nearest to the
    decimals. *)
Definition lit_52_2 : float := S754_finite false 7346496892148122 (-47).
Definition lit_5_3 : float := S754_finite false 5967269506265907 (-50).
Definition lit_0_7 : float := S754_finite false 6305039478318694 (-53).

Record popup : Type := Popup {
  html : string;
  max_width : Z
}.

(** [folium.CircleMarker(location=..., radius=..., color=..., fill=...,
    fill_color=..., fill_opacity=..., popup=...)] *)
Record circle_marker : Type := CircleMarker {
  location : float * float;
  radius : Z;
  color : string;
  fill : bool;
  fill_color : string;
  fill_opacity : float;
  marker_popup : popup
}.

(** [folium.Map(location=..., zoom_start=..., tiles=...)] and the
    children added to it, oldest first. *)
Record folium_map : Type := Map {
  map_location : list float;
  zoom_start : Z;
  tiles : string;
  children : list circle_marker
}.

(** [child.add_to(m)] *)
Definition add_to (child : circle_marker) (m : folium_map) : folium_map :=
  Map (map_location m) (zoom_start m) (tiles m) (children m ++ [child]).

Definition popup_html (sector : string) (total_emission : float)
    (values : sdict float) : string :=
  "<b>" ++ sector ++ "</b><br>"
  ++ "Totale uitstoot: " ++ format_1f total_emission ++ " Mt CO₂-eq<br>"
  ++ "CO₂: " ++ format_1f (PyDict.get String.eqb values "CO2" zero) ++ " Mt<br>"
  ++ "Overige gassen: "
  ++ format_1f (PyDict.get String.eqb values "other" zero) ++ " Mt".

Fixpoint create_map_loop (averages : sdict float)
    (sector_coords : sdict (float * float)) (m : folium_map)
    (items : list (string * sdict float)) : folium_map :=
  match items with
  | [] => m
  | (sector, values) :: rest =>
      match PyDict.lookup String.eqb sector_coords sector with
      | None => create_map_loop averages sector_coords m rest
      | Some coord =>
          let total_emission := PyDict.get String.eqb values "total" zero in
          let marker_color :=
            if le total_emission (PyDict.get String.eqb averages "total" zero)
            then "green" else "red" in
          create_map_loop averages sector_coords
            (add_to
               (CircleMarker coord 10 marker_color true marker_color lit_0_7
                  (Popup (popup_html sector total_emission values) 300))
               m)
            rest
      end
  end.

Definition create_map (data : sector_emissions) (averages : sdict float)
    (sector_coords : sdict (float * float)) : folium_map :=
  create_map_loop averages sector_coords
    (Map [lit_52_2; lit_5_3] 7 "CartoDB positron" [])
    (PyDict.items data).

(** *** [main], from the averages on

    What [main] does with the data once fetched, for data of the type
    that [get_emission_data] is annotated with.  The page is the list of
    the elements written, together with the exception that ended the run,
    if any. *)

Inductive element : Type :=
| Html (m : folium_map) (height : Z) (scrolling : bool)
| Warning (body : string)
| Subheader (body : string)
| WriteDict (d : sdict string)
| Write (body : string).

(** [{cat: compute_average(data, cat) for cat in cats}] *)
Fixpoint averages_of (data : sector_emissions) (cats : list string)
    (acc : sdict float) : result (sdict float) :=
  match cats with
  | [] => Ok acc
  | cat :: rest =>
      average <- compute_average data cat ;;
      averages_of data rest (PyDict.set String.eqb acc cat average)
  end.

Definition sector_coords : sdict (float * float) :=
  [
    ("Industrie",
     (S754_finite false 7305804054765062 (-47),   (* 51.91086 *)
      S754_finite false 5042432804787239 (-50)))   (* 4.47858 *);
    ("Elektriciteit",
     (S754_finite false 7517492940499845 (-47),   (* 53.415 *)
      S754_finite false 7689896363735122 (-50)))   (* 6.83 *);
    ("Mobiliteit",
     (S754_finite false 7370452664466012 (-47),   (* 52.370216 *)
      S754_finite false 5511469195178994 (-50)))   (* 4.895168 *);
    ("Landbouw",
     (S754_finite false 7423902510743552 (-47),   (* 52.75 *)
      S754_finite false 5967269506265907 (-50)))   (* 5.3 *);
    ("Gebouwde omgeving",
     (S754_finite false 7331119914170418 (-47),   (* 52.09074 *)
      S754_finite false 5766206300901951 (-50)))   (* 5.12142 *);
    ("Landgebruik",
     (S754_finite false 7457623212953489 (-47),   (* 52.9896 *)
      S754_finite false 7391420298431142 (-50)))   (* 6.5649 *)
  ].

Definition main_body (data : sector_emissions) : list element * option exn :=
  match averages_of data ["total"; "CO2"; "other"] [] with
  | Raise e => ([], Some e)
  | Ok averages =>
      let page :=
        match data with
        | [] =>
            [Warning "Kon geen data ophalen van de CBS API. Controleer uw internetverbinding of API‑toegang."]
        | _ => [Html (create_map data averages sector_coords) 600 false]
        end
        ++ [Subheader "Gemiddelde uitstoot per sector"] in
      match
        (total <- getitem averages "total" ;;
         co2 <- getitem averages "CO2" ;;
         other <- getitem averages "other" ;;
         Ok [ ("Totale gassen", (format_1f total ++ " Mt")%string);
              ("CO₂", (format_1f co2 ++ " Mt")%string);
              ("Overige gassen", (format_1f other ++ " Mt")%string) ])
      with
      | Raise e => (page, Some e)
      | Ok shown =>
          let page :=
            page ++ [WriteDict shown;
                     Subheader "Actiepunten voor toezichthouders"] in
          match interpret_data data averages with
          | Raise e => (page, Some e)
          | Ok [] =>
              (page ++ [Write "Geen sectoren boven het gemiddelde voor deze periode."],
               None)
          | Ok actions =>
              (page ++ map (fun entry => Write ("- " ++ snd entry)%string)
                         (PyDict.items actions),
               None)
          end
      end
  end.

End Dashboard.

(** The values that [compute_average] collects for a category. *)
Definition values_of (data : sector_emissions) (category : string)
    : list float :=
  map (fun vals => PyDict.get String.eqb vals category zero)
      (PyDict.values data).

(** The three categories, as [main] lists them. *)
Definition category_names : list string := ["total"; "CO2"; "other"].

(** Two states of the partial sums of [_sum] that stand for the same
    totals. *)
Definition same_sums (a b : Statistics.partial_sums) : Prop :=
  (fst a == fst b)%Q /\ snd a = snd b.

(** The colour of the marker of a sector. *)
Definition colour_of (averages : sdict float) (values : sdict float) : string :=
  if Dashboard.le (Spec.total_of values) (Spec.baseline_of averages)
  then "green" else "red".

(** The markers that a sector adds to the map: one when the sector has
    coordinates, none otherwise. *)
Definition markers_of (averages : sdict float)
    (sector_coords : sdict (float * float)) (item : string * sdict float)
    : list Dashboard.circle_marker :=
  match PyDict.lookup String.eqb sector_coords (fst item) with
  | Some coord =>
      [Dashboard.CircleMarker coord 10 (colour_of averages (snd item)) true
         (colour_of averages (snd item)) Dashboard.lit_0_7
         (Dashboard.Popup
            (Dashboard.popup_html (fst item) (Spec.total_of (snd item))
               (snd item))
            300)]
  | None => []
  end.

(** The sectors of the data that have coordinates. *)
Definition located (sector_coords : sdict (float * float))
    (data : sector_emissions) : sector_emissions :=
  filter (fun item => PyDict.mem String.eqb sector_coords (fst item)) data.

(** Every sector of the results has a value, and values only for the
    allowed categories. *)
Definition shaped (allowed : string -> Prop) (results : emissions) : Prop :=
  forall name inner, In (name, inner) results ->
    inner <> [] /\ forall c, In c (PyDict.keys inner) -> allowed c.

(** * Facts about dictionaries *)

Section DictAppend.
Context {K V : Type}.
Variable eqb : K -> K -> bool.

Lemma set_fresh (d : PyDict.dict K V) k v :
  PyDict.lookup eqb d k = None -> PyDict.set eqb d k v = d ++ [(k, v)].
Proof.
  induction d as [|[k0 v0] rest IH]; simpl; [reflexivity|].
  destruct (eqb k0 k); [discriminate|]. intros H. now rewrite IH.
Qed.

Lemma lookup_app (d d' : PyDict.dict K V) k :
  PyDict.lookup eqb (d ++ d') k =
  match PyDict.lookup eqb d k with
  | Some v => Some v
  | None => PyDict.lookup eqb d' k
  end.
Proof.
  induction d as [|[k0 v0] rest IH]; simpl; [reflexivity|].
  now destruct (eqb k0 k).
Qed.

Lemma lookup_set_None (d : PyDict.dict K V) k k' v :
  eqb k k' = false ->
  PyDict.lookup eqb d k' = None ->
  PyDict.lookup eqb (PyDict.set eqb d k v) k' = None.
Proof.
  intros Hk. induction d as [|[k0 v0] rest IH]; simpl.
  - now rewrite Hk.
  - destruct (eqb k0 k) eqn:H0; simpl; destruct (eqb k0 k');
      auto; discriminate.
Qed.
Lemma In_set (d : PyDict.dict K V) k v k' v' :
  In (k', v') (PyDict.set eqb d k v) -> v' = v \/ In (k', v') d.
Proof.
  induction d as [|[k0 v0] rest IH]; simpl.
  - intros [[= _ ->]|[]]. now left.
  - destruct (eqb k0 k); simpl.
    + intros [[= <- <-]|H]; auto.
    + intros [H|H]; auto. destruct (IH H); auto.
Qed.
Lemma lookup_Some_In (d : PyDict.dict K V) k v :
  PyDict.lookup eqb d k = Some v -> exists k0, In (k0, v) d.
Proof.
  induction d as [|[k0 v0] rest IH]; simpl; [discriminate|].
  destruct (eqb k0 k).
  - intros [= ->]. exists k0. now left.
  - intros H. destruct (IH H) as [k1 H1]. exists k1. now right.
Qed.
End DictAppend.

Section DictFacts.
Context {K V : Type}.
Variable eqb : K -> K -> bool.
(** The keys in use, on which [eqb] is an equivalence. *)
Variable P : K -> Prop.
Hypothesis eqb_sym : forall a b, P a -> P b -> eqb a b = eqb b a.
Hypothesis eqb_trans :
  forall a b c, P a -> P b -> P c ->
    eqb a b = true -> eqb b c = true -> eqb a c = true.


Lemma eqb_congr a b c :
  P a -> P b -> P c -> eqb a b = true -> eqb a c = eqb b c.
Proof.
  intros Pa Pb Pc Hab.
  destruct (eqb b c) eqn:Hbc.
  - now apply eqb_trans with b.
  - destruct (eqb a c) eqn:Hac; [|reflexivity].
    rewrite <- Hbc. symmetry. apply eqb_trans with a; auto.
    now rewrite eqb_sym.
Qed.

Lemma lookup_set_eq (d : PyDict.dict K V) k k' v :
  keys_in P d -> P k -> P k' -> eqb k k' = true ->
  PyDict.lookup eqb (PyDict.set eqb d k v) k' = Some v.
Proof.
  intros Hd Pk Pk' Hkk'. induction d as [|[k0 v0] rest IH]; simpl.
  - now rewrite Hkk'.
  - inversion Hd as [|? ? P0 Hrest]; subst.
    destruct (eqb k0 k) eqn:H0; simpl.
    + rewrite (eqb_congr k0 k k') by assumption. now rewrite Hkk'.
    + destruct (eqb k0 k') eqn:H1; [|now apply IH].
      assert (eqb k0 k = true); [|congruence].
      apply eqb_trans with k'; auto. now rewrite eqb_sym.
Qed.

Lemma lookup_set_ne (d : PyDict.dict K V) k k' v :
  keys_in P d -> P k -> P k' -> eqb k k' = false ->
  PyDict.lookup eqb (PyDict.set eqb d k v) k' = PyDict.lookup eqb d k'.
Proof.
  intros Hd Pk Pk' Hkk'. induction d as [|[k0 v0] rest IH]; simpl.
  - now rewrite Hkk'.
  - inversion Hd as [|? ? P0 Hrest]; subst.
    destruct (eqb k0 k) eqn:H0; simpl.
    + rewrite (eqb_congr k0 k k') by assumption. now rewrite Hkk'.
    + destruct (eqb k0 k'); [reflexivity|now apply IH].
Qed.

Lemma keys_in_set (d : PyDict.dict K V) k v :
  keys_in P d -> P k -> keys_in P (PyDict.set eqb d k v).
Proof.
  unfold keys_in. intros Hd Pk. induction d as [|[k0 v0] rest IH]; simpl.
  - now constructor.
  - inversion Hd; subst. destruct (eqb k0 k); simpl; constructor; auto.
Qed.
Lemma lookup_congr (d : PyDict.dict K V) k k' :
  keys_in P d -> P k -> P k' -> eqb k k' = true ->
  PyDict.lookup eqb d k = PyDict.lookup eqb d k'.
Proof.
  intros Hd Pk Pk' Hkk'. induction d as [|[k0 v0] rest IH]; simpl; auto.
  inversion Hd as [|? ? P0 Hrest]; subst.
  rewrite (eqb_sym k0 k), (eqb_sym k0 k') by assumption.
  rewrite (eqb_congr k k' k0) by assumption.
  destruct (eqb k' k0); auto.
Qed.

Lemma wf_set (d : PyDict.dict K V) k v :
  keys_in P d -> P k -> PyDict.wf eqb d -> PyDict.wf eqb (PyDict.set eqb d k v).
Proof.
  intros Hd Pk. induction d as [|[k0 v0] rest IH]; simpl; auto.
  inversion Hd as [|? ? P0 Hrest]; subst.
  intros [Hfresh Hwf].
  destruct (eqb k0 k) eqn:H0; simpl; split; auto.
  apply lookup_set_None; auto.
  now rewrite eqb_sym.
Qed.
End DictFacts.


Lemma lookup_set_str {V : Type} (d : sdict V) k k' v :
  PyDict.lookup String.eqb (PyDict.set String.eqb d k v) k' =
  if String.eqb k k' then Some v else PyDict.lookup String.eqb d k'.
Proof.
  induction d as [|[k0 v0] rest IH]; simpl; auto.
  destruct (String.eqb_spec k0 k) as [->|Hne]; simpl.
  - now destruct (String.eqb k k').
  - rewrite IH. destruct (String.eqb_spec k0 k') as [->|]; auto.
    destruct (String.eqb_spec k k'); congruence.
Qed.

Lemma wf_set_str {V : Type} (d : sdict V) k v :
  PyDict.wf String.eqb d -> PyDict.wf String.eqb (PyDict.set String.eqb d k v).
Proof.
  apply (wf_set String.eqb (fun _ => True)); auto.
  - intros. apply String.eqb_sym.
  - unfold keys_in. apply Forall_forall. auto.
Qed.

(** Dictionaries with string keys. *)

Lemma string_eqb_sym (a b : string) : String.eqb a b = String.eqb b a.
Proof. apply String.eqb_sym. Qed.

Lemma lookup_In {V : Type} (d : sdict V) k v :
  PyDict.lookup String.eqb d k = Some v -> In (k, v) d.
Proof.
  induction d as [|[k0 v0] rest IH]; simpl; [discriminate|].
  destruct (String.eqb_spec k0 k) as [->|_].
  - intros [= ->]. now left.
  - intros H. right. now apply IH.
Qed.

Lemma lookup_None_In {V : Type} (d : sdict V) k :
  PyDict.lookup String.eqb d k = None -> ~ In k (PyDict.keys d).
Proof.
  induction d as [|[k0 v0] rest IH]; simpl; [tauto|].
  destruct (String.eqb_spec k0 k) as [->|Hne]; [discriminate|].
  intros H [Heq|Hin]; [congruence|]. now apply IH.
Qed.

Lemma In_lookup {V : Type} (d : sdict V) k v :
  PyDict.wf String.eqb d -> In (k, v) d ->
  PyDict.lookup String.eqb d k = Some v.
Proof.
  induction d as [|[k0 v0] rest IH]; simpl; [tauto|].
  intros [Hfresh Hwf] [[= -> ->]|Hin].
  - now rewrite String.eqb_refl.
  - destruct (String.eqb_spec k0 k) as [->|_]; [|now apply IH].
    exfalso. apply (lookup_None_In _ _ Hfresh).
    unfold PyDict.keys. change k with (fst (k, v)). now apply in_map.
Qed.

(** Looking up in the entries kept by a filter and rebuilt by [f]. *)
Lemma lookup_map_filter {V W : Type} (keep : string * V -> bool)
    (f : string * V -> W) (d : sdict V) k :
  PyDict.wf String.eqb d ->
  PyDict.lookup String.eqb
    (map (fun item => (fst item, f item)) (filter keep d)) k =
  match PyDict.lookup String.eqb d k with
  | Some v => if keep (k, v) then Some (f (k, v)) else None
  | None => None
  end.
Proof.
  induction d as [|[k0 v0] rest IH]; simpl; [reflexivity|].
  intros [Hfresh Hwf]. specialize (IH Hwf).
  destruct (String.eqb_spec k0 k) as [->|Hne].
  - rewrite Hfresh in IH.
    destruct (keep (k, v0)); simpl; [now rewrite String.eqb_refl|exact IH].
  - destruct (keep (k0, v0)); simpl; [|exact IH].
    destruct (String.eqb_spec k0 k); [contradiction|exact IH].
Qed.

(** * [interpret_data] *)

Section InterpretData.
Variable averages : sdict float.

Let keep (item : string * sdict float) : bool :=
  Spec.above_baseline averages (snd item).

Let text (item : string * sdict float) : string :=
  action_text (fst item) (Spec.total_of (snd item))
    (Spec.baseline_of averages).

(** Whenever the loop ends normally it has appended one entry for each
    sector above the baseline, in the order of the data. *)
Lemma interpret_loop_Ok items :
  PyDict.wf String.eqb items ->
  forall acc actions,
    (forall k, In k (PyDict.keys items) ->
               PyDict.lookup String.eqb acc k = None) ->
    interpret_loop averages acc items = Ok actions ->
    actions = acc ++ map (fun item => (fst item, text item)) (filter keep items).
Proof.
  induction items as [|[sector vals] rest IH]; simpl.
  - intros _ acc actions _ [= <-]. now rewrite app_nil_r.
  - intros [Hfresh Hwf] acc actions Hacc.
    unfold keep at 1, Spec.above_baseline, Spec.total_of, Spec.baseline_of.
    simpl snd.
    destruct (gt _ _) eqn:Hgt.
    + destruct (PyDict.lookup String.eqb averages "total") as [average|] eqn:Hb;
        [|discriminate].
      intros Hloop. apply IH in Hloop; auto.
      * rewrite set_fresh in Hloop by (apply Hacc; now left).
        rewrite <- app_assoc in Hloop. simpl in Hloop. subst actions.
        do 3 f_equal.
        unfold text, Spec.total_of, Spec.baseline_of, PyDict.get. simpl.
        now rewrite Hb.
      * intros k Hk.
        apply lookup_set_None; [|apply Hacc; now right].
        destruct (String.eqb_spec sector k) as [->|]; [|reflexivity].
        now apply lookup_None_In in Hfresh.
    + intros Hloop. apply IH in Hloop; auto.
Qed.

(** With a baseline for the totals the loop always ends normally. *)
Lemma interpret_loop_total average items acc :
  PyDict.lookup String.eqb averages "total" = Some average ->
  exists actions, interpret_loop averages acc items = Ok actions.
Proof.
  intros Hb. revert acc.
  induction items as [|[sector vals] rest IH]; simpl; intros acc.
  - now exists acc.
  - rewrite Hb. destruct (gt _ _); apply IH.
Qed.

(** Without one, the first sector above [0.0] raises [KeyError]. *)
Lemma interpret_loop_missing items acc :
  PyDict.lookup String.eqb averages "total" = None ->
  interpret_loop averages acc items =
  if existsb (fun item => gt (Spec.total_of (snd item)) zero) items
  then Raise KeyError else Ok acc.
Proof.
  intros Hb. revert acc.
  induction items as [|[sector vals] rest IH]; simpl; intros acc;
    [reflexivity|].
  unfold PyDict.get at 2. rewrite Hb. fold (Spec.total_of vals).
  destruct (gt (Spec.total_of vals) zero); simpl; [reflexivity|apply IH].
Qed.

Lemma interpret_data_Ok data actions :
  PyDict.wf String.eqb data ->
  interpret_data data averages = Ok actions ->
  actions = map (fun item => (fst item, text item)) (filter keep data).
Proof.
  intros Hwf H. apply interpret_loop_Ok in H; auto.
Qed.

Lemma interpret_data_lookup data actions sector :
  PyDict.wf String.eqb data ->
  interpret_data data averages = Ok actions ->
  PyDict.lookup String.eqb actions sector =
  match PyDict.lookup String.eqb data sector with
  | Some vals =>
      if Spec.above_baseline averages vals
      then Some (action_text sector (Spec.total_of vals)
                   (Spec.baseline_of averages))
      else None
  | None => None
  end.
Proof.
  intros Hwf H. rewrite (interpret_data_Ok _ _ Hwf H).
  now rewrite lookup_map_filter.
Qed.
End InterpretData.

(** ** Comparison of floats *)

(** Floats that compare equal are the same float, or two zeros. *)
Lemma SFcompare_Eq_inv (x y : float) :
  SFcompare x y = Some Eq -> x = y \/ (is_zero x = true /\ is_zero y = true).
Proof.
  destruct x as [sx|sx| |sx mx ex], y as [sy|sy| |sy my ey]; simpl;
    try discriminate; auto;
    try (destruct sx, sy; (discriminate || auto));
    try (destruct sx; discriminate); try (destruct sy; discriminate).
  all: change (PosDef.Pos.compare_cont Eq mx my) with (Pos.compare mx my).
  all: destruct (Z.compare_spec ex ey) as [->|_|_]; try discriminate.
  all: destruct (Pos.compare_spec mx my) as [->|_|_]; try discriminate; auto.
Qed.

Lemma SFcompare_refl (x : float) :
  is_nan x = false -> SFcompare x x = Some Eq.
Proof.
  destruct x as [sx|sx| |sx mx ex]; simpl; try discriminate; auto.
  - now destruct sx.
  - change (PosDef.Pos.compare_cont Eq mx mx) with (Pos.compare mx mx).
    rewrite Z.compare_refl, Pos.compare_refl. now destruct sx.
Qed.

Lemma SFcompare_zeros (x y : float) :
  is_zero x = true -> is_zero y = true -> SFcompare x y = Some Eq.
Proof. destruct x, y; simpl; try discriminate; reflexivity. Qed.

Lemma SFcompare_not_nan (x y : float) c :
  SFcompare x y = Some c -> is_nan x = false /\ is_nan y = false.
Proof. destruct x, y; simpl; try discriminate; auto. Qed.

(** Python's [==] and [>] exclude each other. *)
Lemma eqb_not_gt (x y : float) : PyFloat.eqb x y = true -> gt x y = false.
Proof.
  unfold PyFloat.eqb, gt, SFeqb, SFltb.
  destruct (SFcompare x y) as [[| |]|] eqn:Hc; try discriminate. intros _.
  destruct (SFcompare_Eq_inv _ _ Hc) as [<-|[Hx Hy]].
  - apply SFcompare_not_nan in Hc as [Hx _]. now rewrite SFcompare_refl.
  - now rewrite SFcompare_zeros.
Qed.

Lemma existsb_above data sector vals (b : float) :
  PyDict.lookup String.eqb data sector = Some vals ->
  gt (Spec.total_of vals) b = true ->
  existsb (fun item : string * sdict float => gt (Spec.total_of (snd item)) b)
    data = true.
Proof.
  intros Hl Hgt. apply existsb_exists. exists (sector, vals).
  split; [now apply lookup_In|exact Hgt].
Qed.

(** C3.  The keys of the recommendations are exactly the sectors whose
    total (0.0 when absent) is strictly greater than the baseline of the
    totals: with a baseline [interpret_data] returns, and whatever it
    returns has a key for a sector if and only if the sector is in the data
    with a total above the baseline; a total equal to the baseline gives
    no key. *)
Theorem interpret_data_keys (data : sector_emissions) (averages : sdict float) :
  PyDict.wf String.eqb data ->
  (PyDict.mem String.eqb averages "total" = true ->
   exists actions, interpret_data data averages = Ok actions) /\
  (forall actions, interpret_data data averages = Ok actions ->
   forall sector,
     (PyDict.mem String.eqb actions sector = true <->
      exists vals,
        PyDict.lookup String.eqb data sector = Some vals /\
        gt (Spec.total_of vals) (Spec.baseline_of averages) = true) /\
     (forall vals,
        PyDict.lookup String.eqb data sector = Some vals ->
        PyFloat.eqb (Spec.total_of vals) (Spec.baseline_of averages) = true ->
        PyDict.mem String.eqb actions sector = false)).
Proof.
  intros Hwf. split.
  - unfold PyDict.mem.
    destruct (PyDict.lookup String.eqb averages "total") as [average|] eqn:Hb;
      [intros _|discriminate].
    now apply interpret_loop_total with average.
  - intros actions Hret sector. unfold PyDict.mem.
    rewrite (interpret_data_lookup averages data actions sector Hwf Hret).
    unfold Spec.above_baseline. split.
    + destruct (PyDict.lookup String.eqb data sector) as [vals|].
      * destruct (gt _ _) eqn:Hgt; split; try discriminate.
        -- intros _. now exists vals.
        -- reflexivity.
        -- intros (vals' & [= <-] & Hgt'). congruence.
      * split; [discriminate|]. intros (vals & Hv & _). discriminate.
    + intros vals -> Heq. now rewrite (eqb_not_gt _ _ Heq).
Qed.

Lemma interpret_data_keys_witness :
  PyDict.wf String.eqb example_data /\
  (PyDict.mem String.eqb example_actions "Industrie" = true /\
   PyDict.mem String.eqb example_actions "Mobiliteit" = false).
Proof.
  assert (Hwf : PyDict.wf String.eqb example_data) by (simpl; auto).
  split; [exact Hwf|].
  destruct (interpret_data_keys example_data example_averages Hwf)
    as [_ Hkeys].
  specialize (Hkeys example_actions eq_refl).
  split.
  - apply (proj1 (Hkeys "Industrie")).
    eexists. split; reflexivity.
  - reflexivity.
Defined.

(** C7.  The text of each recommendation is, in this order: the sector
    name, its total with one decimal, the baseline of the totals with one
    decimal and the fixed advice, between fixed words; a sector that is not
    above the baseline has no entry at all. *)
Theorem interpret_data_text (data : sector_emissions) (averages : sdict float)
    (actions : sdict string) (sector : string) :
  PyDict.wf String.eqb data ->
  interpret_data data averages = Ok actions ->
  match PyDict.lookup String.eqb actions sector with
  | Some text =>
      exists vals average,
        PyDict.lookup String.eqb data sector = Some vals /\
        PyDict.lookup String.eqb averages "total" = Some average /\
        gt (Spec.total_of vals) average = true /\
        text =
          ("De sector " ++ sector ++ " stoot "
           ++ format_1f (Spec.total_of vals)
           ++ " Mt CO₂-equivalent uit, wat boven het gemiddelde van "
           ++ format_1f average
           ++ " Mt ligt. Controleer grote                 installaties en voer aanvullende reductiemaatregelen uit.")%string
  | None =>
      forall vals,
        PyDict.lookup String.eqb data sector = Some vals ->
        gt (Spec.total_of vals) (Spec.baseline_of averages) = false
  end.
Proof.
  intros Hwf Hret.
  rewrite (interpret_data_lookup averages data actions sector Hwf Hret).
  unfold Spec.above_baseline.
  destruct (PyDict.lookup String.eqb data sector) as [vals|] eqn:Hl;
    [|discriminate].
  destruct (gt _ _) eqn:Hgt; [|now intros vals' [= <-]].
  destruct (PyDict.lookup String.eqb averages "total") as [average|] eqn:Hb.
  - exists vals, average. unfold Spec.baseline_of, PyDict.get in *.
    rewrite Hb in *. repeat split; auto.
  - exfalso. unfold interpret_data in Hret.
    rewrite interpret_loop_missing in Hret by assumption.
    unfold Spec.baseline_of, PyDict.get in Hgt. rewrite Hb in Hgt.
    unfold PyDict.items in Hret.
    now rewrite (existsb_above data sector vals zero Hl Hgt) in Hret.
Qed.

Lemma interpret_data_text_witness :
  PyDict.wf String.eqb example_data /\
  interpret_data example_data example_averages = Ok example_actions /\
  PyDict.lookup String.eqb example_actions "Mobiliteit" = None /\
  exists vals average,
    PyDict.lookup String.eqb example_data "Industrie" = Some vals /\
    PyDict.lookup String.eqb example_averages "total" = Some average /\
    gt (Spec.total_of vals) average = true /\
    PyDict.lookup String.eqb example_actions "Industrie" =
    Some ("De sector " ++ "Industrie" ++ " stoot "
          ++ format_1f (Spec.total_of vals)
          ++ " Mt CO₂-equivalent uit, wat boven het gemiddelde van "
          ++ format_1f average
          ++ " Mt ligt. Controleer grote                 installaties en voer aanvullende reductiemaatregelen uit.")%string.
Proof.
  assert (Hwf : PyDict.wf String.eqb example_data) by (simpl; auto).
  repeat split; auto.
  pose proof (interpret_data_text example_data example_averages
                example_actions "Industrie" Hwf eq_refl) as H.
  simpl PyDict.lookup in H.
  destruct H as (vals & average & Hv & Ha & Hgt & Htext).
  exists vals, average. repeat split; auto.
  simpl PyDict.lookup. now rewrite Htext.
Defined.

(** C10.  When the averages have no ['total'] entry, [interpret_data]
    raises [KeyError] exactly when some sector of the data has a total
    (0.0 when absent) strictly greater than 0.0, and returns the empty
    mapping when no sector has. *)
Theorem interpret_data_missing_total (data : sector_emissions)
    (averages : sdict float) :
  PyDict.lookup String.eqb averages "total" = None ->
  (interpret_data data averages = Raise KeyError <->
   exists sector vals,
     In (sector, vals) (PyDict.items data) /\
     gt (PyDict.get String.eqb vals "total" zero) zero = true) /\
  ((forall sector vals,
      In (sector, vals) (PyDict.items data) ->
      gt (PyDict.get String.eqb vals "total" zero) zero = false) ->
   interpret_data data averages = Ok []).
Proof.
  intros Hb. unfold interpret_data.
  rewrite interpret_loop_missing by assumption.
  unfold PyDict.items.
  destruct (existsb _ data) eqn:Hex.
  - apply existsb_exists in Hex as ([sector vals] & Hin & Hgt).
    split.
    + split; [intros _|reflexivity]. now exists sector, vals.
    + intros Hall. specialize (Hall sector vals Hin).
      unfold Spec.total_of in Hgt. simpl in Hgt. congruence.
  - split; [|reflexivity].
    split; [discriminate|].
    intros (sector & vals & Hin & Hgt).
    assert (existsb (fun item : string * sdict float =>
                       gt (Spec.total_of (snd item)) zero) data = true);
      [|congruence].
    apply existsb_exists. now exists (sector, vals).
Qed.

Lemma interpret_data_missing_total_witness :
  PyDict.lookup String.eqb ([("CO2", five)] : sdict float) "total" = None /\
  interpret_data example_data [("CO2", five)] = Raise KeyError /\
  interpret_data [("Landgebruik", [("total", S754_zero true)]); ("Landbouw", [])]
    [("CO2", five)] = Ok [].
Proof.
  split; [reflexivity|]. split.
  - apply (interpret_data_missing_total example_data [("CO2", five)] eq_refl).
    exists "Industrie", [("total", ten); ("CO2", six); ("other", four)].
    split; [now left|reflexivity].
  - apply (interpret_data_missing_total _ [("CO2", five)] eq_refl).
    intros sector vals [[= <- <-]|[[= <- <-]|[]]]; reflexivity.
Defined.

(** * Binary64 floats *)

Lemma digits2_pos_size (m : positive) : digits2_pos m = Pos.size m.
Proof. induction m; simpl; congruence. Qed.

Lemma digits2_log2 (m : positive) :
  Zpos (digits2_pos m) = Z.log2 (Zpos m) + 1.
Proof.
  rewrite digits2_pos_size.
  destruct m; simpl; rewrite ?Pos.add_1_r; try reflexivity.
  all: now rewrite <- Pos.add_1_r.
Qed.

(** A mantissa of [d] binary digits lies in [[2 ^ (d - 1), 2 ^ d)]. *)
Lemma digits2_bounds (m : positive) :
  2 ^ (Zpos (digits2_pos m) - 1) <= Zpos m < 2 ^ Zpos (digits2_pos m).
Proof.
  rewrite digits2_log2.
  replace (Z.log2 (Zpos m) + 1 - 1) with (Z.log2 (Zpos m)) by lia.
  apply (Z.log2_spec (Zpos m)). lia.
Qed.

(** What [valid] says of a finite float: at most 53 digits at an exponent
    between -1074 and 971, and exactly 53 digits above the least
    exponent. *)
Lemma bounded_inv (m : positive) (e : Z) :
  bounded prec emax m e = true ->
  -1074 <= e <= 971 /\
  Zpos (digits2_pos m) <= 53 /\
  (e = -1074 \/ Zpos (digits2_pos m) = 53).
Proof.
  unfold bounded, canonical_mantissa, fexp, SpecFloat.emin, prec, emax.
  intros H. apply andb_prop in H as [Hc He].
  apply Z.eqb_eq in Hc. apply Z.leb_le in He. lia.
Qed.

Lemma bounded_intro (m : positive) (e : Z) :
  -1074 <= e <= 971 ->
  Zpos (digits2_pos m) <= 53 ->
  (e = -1074 \/ Zpos (digits2_pos m) = 53) ->
  bounded prec emax m e = true.
Proof.
  unfold bounded, canonical_mantissa, fexp, SpecFloat.emin, prec, emax.
  intros He Hd Hn. apply andb_true_intro. split.
  - apply Z.eqb_eq. lia.
  - apply Z.leb_le. lia.
Qed.

Lemma magnitude_lt (a b : positive) (ea eb : Z) :
  -1074 <= ea -> ea < eb ->
  Zpos (digits2_pos a) <= 53 -> Zpos (digits2_pos b) = 53 ->
  Zpos a * 2 ^ (ea + 1074) <> Zpos b * 2 ^ (eb + 1074).
Proof.
  intros Hea Hlt Hda Hdb E.
  pose proof (digits2_bounds a) as Ba. pose proof (digits2_bounds b) as Bb.
  rewrite Hdb in Bb. change (53 - 1) with 52 in Bb.
  replace (eb + 1074) with ((eb - ea) + (ea + 1074)) in E by lia.
  rewrite (Z.pow_add_r 2 (eb - ea) (ea + 1074)) in E by lia.
  assert (0 < 2 ^ (ea + 1074)) by (apply Z.pow_pos_nonneg; lia).
  assert (Ha : Zpos a = Zpos b * 2 ^ (eb - ea)) by nia.
  assert (H1 : 2 ^ 1 <= 2 ^ (eb - ea)) by (apply Z.pow_le_mono_r; lia).
  assert (H53 : Zpos a < 2 ^ 53).
  { eapply Z.lt_le_trans; [apply Ba|]. apply Z.pow_le_mono_r; lia. }
  change (2 ^ 1) with 2 in H1. change (2 ^ 53) with (2 ^ 52 * 2) in H53.
  remember (2 ^ (eb - ea)) as k. remember (2 ^ 52) as c.
  assert (0 < c) by (subst c; reflexivity).
  nia.
Qed.

(** Two valid finite floats of the same magnitude are the same. *)
Lemma bounded_unique (m1 m2 : positive) (e1 e2 : Z) :
  bounded prec emax m1 e1 = true ->
  bounded prec emax m2 e2 = true ->
  Zpos m1 * 2 ^ (e1 + 1074) = Zpos m2 * 2 ^ (e2 + 1074) ->
  m1 = m2 /\ e1 = e2.
Proof.
  intros H1 H2 Heq.
  apply bounded_inv in H1 as (He1 & Hd1 & Hn1).
  apply bounded_inv in H2 as (He2 & Hd2 & Hn2).
  destruct (Z.lt_trichotomy e1 e2) as [Hc|[Hc|Hc]].
  - exfalso. apply (magnitude_lt m1 m2 e1 e2); lia.
  - subst e2. split; [|reflexivity].
    assert (0 < 2 ^ (e1 + 1074)) by (apply Z.pow_pos_nonneg; lia).
    assert (Zpos m1 = Zpos m2) by nia. congruence.
  - exfalso. apply (magnitude_lt m2 m1 e2 e1); lia.
Qed.


(** * Dictionary keys *)

Lemma pow2_pos (n : Z) : 0 <= n -> 0 < 2 ^ n.
Proof. intros. apply Z.pow_pos_nonneg; lia. Qed.

#[local] Opaque Z.pow.

Lemma cond_Zopp_mul (s : bool) (a b : Z) :
  cond_Zopp s (a * b) = cond_Zopp s a * b.
Proof. destruct s; unfold cond_Zopp; ring. Qed.

Lemma float_eq_int_scaled (x : float) (z : Z) :
  valid x = true ->
  float_eq_int x z = true <-> is_finite x = true /\ z * 2 ^ 1074 = scaled x.
Proof.
  pose proof (pow2_pos 1074 ltac:(lia)) as H1074.
  destruct x as [s|s| |s m e]; unfold float_eq_int, scaled, is_finite;
    intros Hv.
  - rewrite Z.eqb_eq. nia.
  - split; [discriminate|tauto].
  - split; [discriminate|tauto].
  - apply bounded_inv in Hv as (He & _).
    rewrite cond_Zopp_mul.
    destruct e as [|p|p].
    + rewrite Z.eqb_eq. replace (0 + 1074) with 1074 by lia.
      change (2 ^ 0) with 1. nia.
    + rewrite Z.eqb_eq. rewrite Z.pow_add_r by lia.
      remember (2 ^ 1074) as k. remember (2 ^ Zpos p) as j. nia.
    + rewrite Z.eqb_eq.
      assert (E : 2 ^ 1074 = 2 ^ Zpos p * 2 ^ (Zneg p + 1074)).
      { rewrite <- Z.pow_add_r by lia. f_equal. lia. }
      pose proof (pow2_pos (Zneg p + 1074) ltac:(lia)).
      rewrite E. remember (2 ^ (Zneg p + 1074)) as k.
      remember (2 ^ Zpos p) as j. clear E Heqk Heqj H1074. nia.
Qed.

Lemma scaled_finite_nonzero (s : bool) (m : positive) (e : Z) :
  -1074 <= e -> scaled (S754_finite s m e) <> 0.
Proof.
  intros He. cbn [scaled].
  pose proof (pow2_pos (e + 1074) ltac:(lia)).
  destruct s; unfold cond_Zopp; nia.
Qed.

Lemma scaled_inj (x y : float) :
  valid x = true -> valid y = true ->
  is_finite x = true -> is_finite y = true ->
  scaled x = scaled y ->
  x = y \/ (is_zero x = true /\ is_zero y = true).
Proof.
  destruct x as [sx|sx| |sx mx ex], y as [sy|sy| |sy my ey];
    cbn [is_finite is_zero valid valid_binary];
    try discriminate; auto; intros Hx Hy _ _ E.
  - exfalso. apply bounded_inv in Hy as (He & _).
    apply (scaled_finite_nonzero sy my ey); [lia|]. now rewrite <- E.
  - exfalso. apply bounded_inv in Hx as (He & _).
    apply (scaled_finite_nonzero sx mx ex); [lia|]. now rewrite E.
  - left.
    pose proof (bounded_inv _ _ Hx) as (Hex & _).
    pose proof (bounded_inv _ _ Hy) as (Hey & _).
    pose proof (pow2_pos (ex + 1074) ltac:(lia)).
    pose proof (pow2_pos (ey + 1074) ltac:(lia)).
    cbn [scaled] in E.
    assert (sx = sy) as <-.
    { destruct sx, sy; unfold cond_Zopp in E; auto; exfalso; nia. }
    assert (E' : Zpos mx * 2 ^ (ex + 1074) = Zpos my * 2 ^ (ey + 1074)).
    { destruct sx; unfold cond_Zopp in E; lia. }
    destruct (bounded_unique _ _ _ _ Hx Hy E') as [-> ->]. reflexivity.
Qed.

Lemma denote_float_inv (x y : float) :
  denote (KFloat x) = denote (KFloat y) ->
  (is_nan x = true /\ is_nan y = true) \/
  (exists s, x = S754_infinity s /\ y = S754_infinity s) \/
  (is_finite x = true /\ is_finite y = true /\ scaled x = scaled y).
Proof.
  destruct x as [sx|sx| |sx mx ex], y as [sy|sy| |sy my ey];
    cbn [denote is_nan is_finite]; intros E; try discriminate; auto.
  all: try (right; right; repeat split; congruence).
  right; left. exists sx. split; congruence.
Qed.

Lemma float_key_eqb (x y : float) :
  valid x = true -> valid y = true ->
  PyFloat.eqb x y || (is_nan x && is_nan y) = true <->
  denote (KFloat x) = denote (KFloat y).
Proof.
  intros Hx Hy. unfold PyFloat.eqb, SFeqb. split.
  - destruct (SFcompare x y) as [[| |]|] eqn:Hc; cbn [orb].
    + intros _. destruct (SFcompare_Eq_inv _ _ Hc) as [->|[Zx Zy]]; auto.
      destruct x, y; try discriminate; reflexivity.
    + destruct x, y; cbn [is_nan andb]; discriminate || reflexivity.
    + destruct x, y; cbn [is_nan andb]; discriminate || reflexivity.
    + destruct x, y; cbn [is_nan andb]; discriminate || reflexivity.
  - intros E.
    destruct (denote_float_inv x y E) as [[Nx Ny]|[(s & -> & ->)|(Fx & Fy & Es)]].
    + rewrite Nx, Ny. apply orb_true_r.
    + now destruct s.
    + destruct (scaled_inj x y Hx Hy Fx Fy Es) as [<-|[Zx Zy]].
      * rewrite SFcompare_refl; [reflexivity|].
        destruct x; try reflexivity; discriminate.
      * now rewrite SFcompare_zeros.
Qed.

(** On valid keys, the key comparison is the equality of meanings. *)
Lemma key_eqb_denote (a b : key) :
  valid_key a = true -> valid_key b = true ->
  key_eqb a b = true <-> denote a = denote b.
Proof.
  assert (H1074 : 0 < 2 ^ 1074) by now apply pow2_pos.
  assert (Hnum : forall z x, valid x = true ->
            float_eq_int x z = true <-> MNum (z * 2 ^ 1074) = denote (KFloat x)).
  { intros z x Hx. rewrite (float_eq_int_scaled x z Hx).
    destruct x; simpl; split; try (intros [? ?]); try discriminate;
      try (intros [= E]); try split; congruence. }
  destruct a as [|x|x|x|x], b as [|y|y|y|y]; intros Ha Hb;
    try (simpl; split; (discriminate || reflexivity));
    try (simpl; split; [discriminate|];
         destruct x; simpl; discriminate);
    try (simpl; split; [discriminate|];
         destruct y; simpl; discriminate).
  - simpl. split.
    + intros E. apply Bool.eqb_prop in E. now subst.
    + intros [= E]. assert (int_of_bool x = int_of_bool y) by nia.
      destruct x, y; simpl in *; reflexivity || discriminate.
  - simpl. rewrite Z.eqb_eq. split; [now intros ->|]. intros [= E]. nia.
  - now apply Hnum.
  - simpl. rewrite Z.eqb_eq. split; [now intros ->|]. intros [= E]. nia.
  - simpl. rewrite Z.eqb_eq. split; [now intros ->|]. intros [= E]. nia.
  - now apply Hnum.
  - change (key_eqb (KFloat x) (KBool y)) with (float_eq_int x (int_of_bool y)).
    rewrite (Hnum (int_of_bool y) x Ha).
    change (denote (KBool y)) with (MNum (int_of_bool y * 2 ^ 1074)).
    split; congruence.
  - change (key_eqb (KFloat x) (KInt y)) with (float_eq_int x y).
    rewrite (Hnum y x Ha).
    change (denote (KInt y)) with (MNum (y * 2 ^ 1074)).
    split; congruence.
  - now apply float_key_eqb.
  - simpl. rewrite String.eqb_eq. split; congruence.
Qed.

Lemma key_eqb_refl (k : key) : key_eqb k k = true.
Proof.
  destruct k as [|b|z|x|s]; simpl; auto.
  - now destruct b.
  - apply Z.eqb_refl.
  - unfold PyFloat.eqb, SFeqb. destruct (is_nan x) eqn:Hn.
    + apply orb_true_r.
    + now rewrite SFcompare_refl.
  - apply String.eqb_refl.
Qed.

Lemma key_eqb_sym (a b : key) :
  valid_key a = true -> valid_key b = true -> key_eqb a b = key_eqb b a.
Proof.
  intros Ha Hb.
  destruct (key_eqb a b) eqn:E1, (key_eqb b a) eqn:E2; auto.
  - apply key_eqb_denote in E1; auto. symmetry in E1.
    apply key_eqb_denote in E1; auto. congruence.
  - apply key_eqb_denote in E2; auto. symmetry in E2.
    apply key_eqb_denote in E2; auto. congruence.
Qed.

Lemma key_eqb_trans (a b c : key) :
  valid_key a = true -> valid_key b = true -> valid_key c = true ->
  key_eqb a b = true -> key_eqb b c = true -> key_eqb a c = true.
Proof.
  intros Ha Hb Hc E1 E2.
  apply key_eqb_denote in E1; auto. apply key_eqb_denote in E2; auto.
  apply key_eqb_denote; auto. congruence.
Qed.

(** * [get_emission_data] *)

Lemma valid_json_get (o : sdict json) (k : string) (d : json) :
  Spec.valid_json (JObj o) = true -> Spec.valid_json d = true ->
  Spec.valid_json (PyDict.get String.eqb o k d) = true.
Proof.
  cbn [Spec.valid_json]. unfold PyDict.get. intros Ho Hd.
  destruct (PyDict.lookup String.eqb o k) as [v|] eqn:Hl; auto.
  rewrite forallb_forall in Ho.
  apply (Ho (k, v)). now apply lookup_In.
Qed.

Lemma valid_json_fetch (api : provider) (url : string) :
  Spec.valid_provider api -> Spec.valid_json (fetch api url) = true.
Proof.
  intros Hv. unfold fetch.
  destruct (api url) as [|status_code [j|]] eqn:Hr; auto;
    destruct (raise_for_status status_code); auto.
  specialize (Hv _ _ _ Hr).
  destruct j; auto. now apply valid_json_get.
Qed.

Lemma valid_json_iterate (data : json) (items : list json) :
  Spec.valid_json data = true -> iterate data = Ok items ->
  forallb Spec.valid_json items = true.
Proof.
  destruct data; cbn [iterate Spec.valid_json]; try discriminate.
  - intros _ [= <-]. apply forallb_forall.
    intros x Hx. apply in_map_iff in Hx as (c & <- & _). reflexivity.
  - now intros H [= <-].
  - intros _ [= <-]. apply forallb_forall.
    intros x Hx. apply in_map_iff in Hx as (c & <- & _). reflexivity.
Qed.

(** The names of the catalog are strings other than the code of the row
    of totals. *)
Lemma sector_name_for_str (code : string) :
  exists name, sector_name_for (JStr code) = Ok (KStr name) /\
               (code <> total_row -> name <> total_row).
Proof.
  unfold sector_name_for. cbn [hash bind].
  destruct (PyDict.lookup String.eqb sectors code) as [name|] eqn:Hl.
  - exists name. split; auto. intros _.
    apply lookup_In in Hl. cbn in Hl.
    repeat (destruct Hl as [[= _ <-]|Hl]; [discriminate|]). destruct Hl.
  - exists code. auto.
Qed.

Lemma sector_name_for_other (j : json) (k : key) :
  hash j = Ok k -> (forall code, j <> JStr code) -> sector_name_for j = Ok k.
Proof.
  unfold sector_name_for. intros Hh Hj. rewrite Hh. cbn [bind].
  destruct j; cbn [hash] in Hh; try discriminate;
    injection Hh as <-; try reflexivity.
  now destruct (Hj s).
Qed.

Lemma record_name_valid (item : json) (name : key) :
  Spec.valid_json item = true -> Spec.record_name item = Some name ->
  valid_key name = true.
Proof.
  destruct item as [| | | | | |o]; cbn [Spec.record_name]; try discriminate.
  intros Ho. destruct (eq_str (sector_key_of o) total_row); [discriminate|].
  assert (Hk : Spec.valid_json (sector_key_of o) = true)
    by now apply valid_json_get.
  unfold sector_name_for.
  destruct (sector_key_of o) as [|b|z|x|code|l|o']; cbn [hash bind];
    try discriminate; try (intros [= <-]; auto).
  destruct (PyDict.lookup String.eqb sectors code); intros [= <-]; auto.
Qed.

(** No record is stored under the code of the row of totals. *)
Lemma record_name_not_total (item : json) (name : key) :
  Spec.record_name item = Some name -> key_eqb name (KStr total_row) = false.
Proof.
  destruct item as [| | | | | |o]; cbn [Spec.record_name]; try discriminate.
  destruct (eq_str (sector_key_of o) total_row) eqn:Hs; [discriminate|].
  destruct (sector_key_of o) as [|b|z|x|code|l|o'] eqn:Hk;
    try (cbn; intros [= <-]; reflexivity); try discriminate.
  destruct (sector_name_for_str code) as (n & -> & Hn).
  intros [= <-]. cbn [key_eqb].
  apply String.eqb_neq. apply Hn. cbn [eq_str] in Hs.
  now apply String.eqb_neq.
Qed.

(** What one turn of the inner loop does, in terms of the stored name. *)
Lemma record_spec (c : string) (results : emissions) (item : json) :
  Spec.storable item = true ->
  record c results item =
  Ok match Spec.record_name item with
     | Some name => store results name c (Spec.record_value item)
     | None => results
     end.
Proof.
  destruct item as [| | | | | |o]; cbn [Spec.storable]; try discriminate.
  cbn [record Spec.record_name Spec.record_value].
  destruct (eq_str (sector_key_of o) total_row); [reflexivity|].
  cbn [orb]. unfold sector_name_for.
  destruct (hash (sector_key_of o)) as [k|] eqn:Hh; [|discriminate].
  intros _. cbn [bind].
  destruct k; try reflexivity.
  now destruct (PyDict.lookup String.eqb sectors s).
Qed.

Lemma record_Ok_storable (c : string) (results results' : emissions)
    (item : json) :
  record c results item = Ok results' -> Spec.storable item = true.
Proof.
  destruct item as [| | | | | |o]; cbn [record Spec.storable]; try discriminate.
  destruct (eq_str (sector_key_of o) total_row); [reflexivity|].
  unfold sector_name_for.
  destruct (hash (sector_key_of o)); [reflexivity|discriminate].
Qed.

Lemma store_valid_keys results name c v :
  valid_keys results -> valid_key name = true ->
  valid_keys (store results name c v).
Proof. intros Hr Hn. now apply keys_in_set. Qed.

Lemma store_unique results name c v :
  valid_keys results -> valid_key name = true ->
  unique results -> unique (store results name c v).
Proof.
  intros Hr Hn [Hwf Hinner]. unfold store. split.
  - apply (wf_set key_eqb (fun k => valid_key k = true)); auto.
    intros. now apply key_eqb_sym.
  - intros name' inner' Hin. apply In_set in Hin as [->|Hin].
    + apply wf_set_str. unfold PyDict.get.
      destruct (PyDict.lookup key_eqb results name) as [inner|] eqn:Hl;
        [|exact I].
      apply lookup_Some_In in Hl as [k0 Hk0]. now apply (Hinner k0).
    + now apply (Hinner name').
Qed.

Lemma store_entry results k c v name c' :
  valid_keys results -> valid_key k = true -> valid_key name = true ->
  Spec.entry (store results k c v) name c' =
  if key_eqb k name && String.eqb c c' then Some v
  else Spec.entry results name c'.
Proof.
  intros Hr Hk Hn. unfold Spec.entry, store.
  destruct (key_eqb k name) eqn:E; cbn [andb].
  - rewrite (lookup_set_eq key_eqb (fun k => valid_key k = true)
               key_eqb_sym key_eqb_trans) by assumption.
    rewrite lookup_set_str. destruct (String.eqb c c'); [reflexivity|].
    rewrite <- (lookup_congr key_eqb (fun k => valid_key k = true)
                  key_eqb_sym key_eqb_trans results k name) by assumption.
    unfold PyDict.get.
    now destruct (PyDict.lookup key_eqb results k).
  - now rewrite (lookup_set_ne key_eqb (fun k => valid_key k = true)
                   key_eqb_sym key_eqb_trans) by assumption.
Qed.

(** What the inner loop leaves behind: for the category at hand the value
    of the last record stored under each name, everything else as it
    was. *)
Lemma records_entry (c : string) (items : list json) :
  forall results results',
    forallb Spec.valid_json items = true ->
    valid_keys results -> unique results ->
    records c results items = Ok results' ->
    valid_keys results' /\ unique results' /\
    forall name c', valid_key name = true ->
      Spec.entry results' name c' =
      if String.eqb c c' then
        match Spec.last_value items name with
        | Some v => Some v
        | None => Spec.entry results name c'
        end
      else Spec.entry results name c'.
Proof.
  induction items as [|item rest IH]; cbn [records forallb Spec.last_value].
  - intros results results' _ Hr Hu [= <-]. (split; [|split]; auto).
    intros name c' _. now destruct (String.eqb c c').
  - intros results results' Hv Hr Hu.
    apply andb_prop in Hv as [Hitem Hrest].
    destruct (record c results item) as [r1|] eqn:H1; [|discriminate].
    cbn [bind]. intros H2.
    rewrite (record_spec c results item) in H1
      by (now apply record_Ok_storable in H1).
    injection H1 as <-.
    destruct (Spec.record_name item) as [k|] eqn:Hname.
    + pose proof (record_name_valid _ _ Hitem Hname) as Hk.
      destruct (IH _ _ Hrest (store_valid_keys _ _ c _ Hr Hk)
                  (store_unique _ _ c _ Hr Hk Hu) H2) as (Hr' & Hu' & He).
      (split; [|split]; auto). intros name c' Hn.
      rewrite (He name c' Hn), store_entry by assumption.
      destruct (String.eqb c c'); [|now rewrite andb_false_r].
      rewrite andb_true_r.
      now destruct (Spec.last_value rest name), (key_eqb k name).
    + destruct (IH _ _ Hrest Hr Hu H2) as (Hr' & Hu' & He).
      (split; [|split]; auto). intros name c' Hn.
      rewrite (He name c' Hn).
      now destruct (Spec.last_value rest name).
Qed.

(** With storable items the inner loop ends normally. *)
Lemma records_total (c : string) (items : list json) :
  forallb Spec.storable items = true ->
  forall results, exists results', records c results items = Ok results'.
Proof.
  induction items as [|item rest IH]; cbn [records forallb].
  - intros _ results. now exists results.
  - intros H results. apply andb_prop in H as [Hitem Hrest].
    rewrite (record_spec c results item Hitem). cbn [bind]. now apply IH.
Qed.

Lemma records_Ok_storable (c : string) (items : list json) :
  forall results results',
    records c results items = Ok results' ->
    forallb Spec.storable items = true.
Proof.
  induction items as [|item rest IH]; cbn [records forallb]; auto.
  intros results results'.
  destruct (record c results item) as [r1|] eqn:H1; [|discriminate].
  cbn [bind]. intros H2.
  rewrite (record_Ok_storable _ _ _ _ H1). now apply IH in H2.
Qed.

Lemma category_Ok api period results results' c category_key :
  category api period results (c, category_key) = Ok results' ->
  iterate (fetch api (query period category_key)) =
    Ok (Spec.items_of api period category_key) /\
  records c results (Spec.items_of api period category_key) = Ok results'.
Proof.
  unfold category, Spec.items_of.
  destruct (iterate (fetch api (query period category_key))) as [items|];
    [|discriminate].
  cbn [bind]. auto.
Qed.

Lemma items_of_valid api period category_key :
  Spec.valid_provider api ->
  forallb Spec.valid_json (Spec.items_of api period category_key) = true.
Proof.
  intros Hv. unfold Spec.items_of.
  destruct (iterate (fetch api (query period category_key))) as [items|] eqn:Hi;
    [|reflexivity].
  apply (valid_json_iterate _ _ (valid_json_fetch api _ Hv) Hi).
Qed.

(** What the outer loop leaves behind: for each category of [entries] and
    each name the value of the last record of that category stored under
    the name, everything else as it was. *)
Lemma category_loop_entry api period (entries : sdict string) :
  Spec.valid_provider api ->
  PyDict.wf String.eqb entries ->
  forall results results',
    valid_keys results -> unique results ->
    category_loop api period results entries = Ok results' ->
    valid_keys results' /\ unique results' /\
    (forall c category_key, In (c, category_key) entries ->
       Spec.well_shaped (fetch api (query period category_key)) = true) /\
    forall name c, valid_key name = true ->
      Spec.entry results' name c =
      match PyDict.lookup String.eqb entries c with
      | Some category_key =>
          match Spec.last_value (Spec.items_of api period category_key) name with
          | Some v => Some v
          | None => Spec.entry results name c
          end
      | None => Spec.entry results name c
      end.
Proof.
  intros Hv.
  induction entries as [|[c0 key0] rest IH];
    cbn [category_loop PyDict.wf PyDict.lookup].
  - intros _ results results' Hr Hu [= <-].
    split; [|split; [|split]]; auto; try now intros c k [].
  - intros [Hfresh Hwf] results results' Hr Hu.
    destruct (category api period results (c0, key0)) as [r1|] eqn:H1;
      [|discriminate].
    cbn [bind]. intros H2.
    apply category_Ok in H1 as [Hi H1].
    destruct (records_entry _ _ _ _ (items_of_valid api period key0 Hv) Hr Hu H1)
      as (Hr1 & Hu1 & He1).
    destruct (IH Hwf _ _ Hr1 Hu1 H2) as (Hr' & Hu' & Hshape & He).
    split; [|split; [|split]]; auto.
    + intros c k [[= <- <-]|Hin]; [|now apply (Hshape c k)].
      unfold Spec.well_shaped. rewrite Hi.
      now apply records_Ok_storable in H1.
    + intros name c Hn. rewrite (He name c Hn), (He1 name c Hn).
      destruct (String.eqb_spec c0 c) as [<-|Hne]; [|reflexivity].
      now rewrite Hfresh.
Qed.

Lemma category_loop_total api period (entries : sdict string) :
  (forall c category_key, In (c, category_key) entries ->
     Spec.well_shaped (fetch api (query period category_key)) = true) ->
  forall results,
    exists results', category_loop api period results entries = Ok results'.
Proof.
  induction entries as [|[c0 key0] rest IH]; cbn [category_loop].
  - intros _ results. now exists results.
  - intros Hshape results.
    pose proof (Hshape c0 key0 (or_introl eq_refl)) as H0.
    unfold Spec.well_shaped in H0. unfold category.
    destruct (iterate (fetch api (query period key0))) as [items|];
      [|discriminate].
    cbn [bind].
    destruct (records_total c0 items H0 results) as [r1 ->]. cbn [bind].
    apply IH. intros c k Hin. apply (Hshape c k). now right.
Qed.

Lemma categories_wf : PyDict.wf String.eqb categories.
Proof. cbn. auto. Qed.

Lemma empty_valid : valid_keys [] /\ unique [].
Proof.
  split; [constructor|]. split; [exact I|]. intros name inner [].
Qed.

(** The emissions returned, entry by entry. *)
Lemma get_emission_data_entry api period results :
  Spec.valid_provider api ->
  get_emission_data api period = Ok results ->
  valid_keys results /\ unique results /\
  forall c category_key, In (c, category_key) categories ->
    Spec.well_shaped (fetch api (query period category_key)) = true /\
    forall name, valid_key name = true ->
      Spec.entry results name c =
      Spec.last_value (Spec.items_of api period category_key) name.
Proof.
  intros Hv Hret. unfold get_emission_data, PyDict.items in Hret.
  destruct empty_valid as [Hr0 Hu0].
  destruct (category_loop_entry api period categories Hv categories_wf
              _ _ Hr0 Hu0 Hret) as (Hr & Hu & Hshape & He).
  split; [|split]; auto.
  intros c category_key Hin. split; [now apply (Hshape c category_key)|].
  intros name Hn. rewrite (He name c Hn).
  rewrite (In_lookup categories c category_key categories_wf Hin).
  now destruct (Spec.last_value _ name).
Qed.

(** A failed request gives no records. *)
Lemma failed_items api period category_key :
  Spec.failed (api (query period category_key)) = true ->
  Spec.items_of api period category_key = [].
Proof.
  unfold Spec.failed, Spec.items_of, fetch.
  destruct (api (query period category_key)) as [|status_code body];
    [reflexivity|].
  destruct (raise_for_status status_code); [reflexivity|].
  cbn [orb]. destruct body as [[]|]; try discriminate; reflexivity.
Qed.

(** The last value among items: the value of a record after which no
    record is stored under an equal name. *)
Lemma last_value_app (before after : list json) (item : json) (name k : key) :
  Spec.record_name item = Some k -> key_eqb k name = true ->
  (forall item' k', In item' after -> Spec.record_name item' = Some k' ->
                    key_eqb k' name = false) ->
  Spec.last_value (before ++ item :: after) name =
  Some (Spec.record_value item).
Proof.
  intros Hname Hk Hafter.
  assert (Ha : Spec.last_value after name = None).
  { induction after as [|item' rest IH]; cbn [Spec.last_value]; auto.
    rewrite IH by (intros; eapply Hafter; eauto; now right).
    destruct (Spec.record_name item') as [k'|] eqn:Hn'; auto.
    now rewrite (Hafter item' k' (or_introl eq_refl) Hn'). }
  induction before as [|b rest IH]; cbn [app Spec.last_value].
  - now rewrite Ha, Hname, Hk.
  - now rewrite IH.
Qed.

Lemma example_api_valid : Spec.valid_provider example_api.
Proof.
  intros url status_code j. unfold example_api.
  destruct (String.eqb url (query "2024JJ00" "T001372")).
  - intros [= _ <-]. reflexivity.
  - destruct (String.eqb url (query "2024JJ00" "A044109")); discriminate.
Qed.

(** C1, as the code has it.  When the data of every category can be
    iterated and holds storable records only (which includes every request
    that fails: no response, a 4xx or 5xx status, a body that is not JSON
    or not a JSON object), [get_emission_data] returns a mapping; a failed
    category contributes no value, every other category contributes, for
    each sector name, the value of its last record; and when every request
    fails the mapping is empty. *)
Theorem get_emission_data_returns (api : provider) (period : string) :
  Spec.valid_provider api ->
  (forall c category_key, In (c, category_key) categories ->
     Spec.failed (api (query period category_key)) = true \/
     Spec.well_shaped (fetch api (query period category_key)) = true) ->
  exists results,
    get_emission_data api period = Ok results /\
    (forall c category_key name,
       In (c, category_key) categories -> valid_key name = true ->
       (Spec.failed (api (query period category_key)) = true ->
        Spec.entry results name c = None) /\
       Spec.entry results name c =
       Spec.last_value (Spec.items_of api period category_key) name) /\
    ((forall c category_key, In (c, category_key) categories ->
        Spec.failed (api (query period category_key)) = true) ->
     results = []).
Proof.
  intros Hv Hshape.
  assert (Hshape' : forall c category_key, In (c, category_key) categories ->
            Spec.well_shaped (fetch api (query period category_key)) = true).
  { intros c k Hin. destruct (Hshape c k Hin) as [Hf|]; auto.
    pose proof (failed_items api period k Hf) as Hi.
    unfold Spec.failed in Hf. unfold Spec.well_shaped, fetch.
    destruct (api (query period k)) as [|status_code body]; [reflexivity|].
    destruct (raise_for_status status_code); [reflexivity|].
    destruct body as [[]|]; try discriminate; reflexivity. }
  destruct (category_loop_total api period categories Hshape' [])
    as [results Hret].
  exists results. split; [exact Hret|].
  destruct (get_emission_data_entry api period results Hv Hret)
    as (_ & _ & He).
  split.
  - intros c k name Hin Hn. destruct (He c k Hin) as [_ Hentry].
    split; [|now apply Hentry].
    intros Hf. rewrite (Hentry name Hn), (failed_items api period k Hf).
    reflexivity.
  - intros Hall. unfold get_emission_data, PyDict.items in Hret.
    assert (H3 : forall k, In k (PyDict.values categories) ->
              iterate (fetch api (query period k)) = Ok []).
    { intros k Hk. apply in_map_iff in Hk as ([c k'] & <- & Hin).
      specialize (Hall c k' Hin). cbn [snd].
      unfold Spec.failed in Hall. unfold fetch.
      destruct (api (query period k')) as [|status_code body]; [reflexivity|].
      destruct (raise_for_status status_code); [reflexivity|].
      destruct body as [[]|]; try discriminate; reflexivity. }
    unfold categories in Hret. cbn [category_loop category] in Hret.
    rewrite (H3 "T001372"), (H3 "A044109"), (H3 "A050122") in Hret
      by (cbn; tauto).
    cbn [bind records] in Hret. congruence.
Qed.

Lemma get_emission_data_returns_witness :
  exists results,
    get_emission_data example_api "2024JJ00" = Ok results /\
    Spec.entry results (KStr "Industrie") "total" = Some JNull /\
    Spec.entry results (KStr "Industrie") "CO2" = None.
Proof.
  destruct (get_emission_data_returns example_api "2024JJ00" example_api_valid)
    as (results & Hret & He & _).
  - intros c k [[= <- <-]|[[= <- <-]|[[= <- <-]|[]]]];
      [right|left|left]; reflexivity.
  - exists results. split; [exact Hret|]. split.
    + now rewrite (proj2 (He "total" "T001372" (KStr "Industrie")
                            (or_introl eq_refl) eq_refl)).
    + apply (proj1 (He "CO2" "A044109" (KStr "Industrie")
                      (or_intror (or_introl eq_refl)) eq_refl)).
      reflexivity.
Defined.

(** C1 fails as stated: a payload whose ["value"] is null leaves the
    [try] block untouched and raises [TypeError] in the loop below it. *)
Lemma get_emission_data_raises :
  Spec.valid_provider null_api /\
  get_emission_data null_api "2023JJ00" = Raise TypeError /\
  ~ (exists results, get_emission_data null_api "2023JJ00" = Ok results).
Proof.
  split; [|split].
  - intros url status_code j [= _ <-]. reflexivity.
  - reflexivity.
  - intros [results H]. discriminate.
Qed.

(** C4.  When the records of a category hold several records stored under
    one sector name, the returned mapping holds the value of the last of
    them, whatever the earlier ones carry; and the mapping holds each
    sector name once and, for a sector, each category once. *)
Theorem last_record_wins (api : provider) (period : string)
    (results : emissions) (c category_key : string)
    (before after : list json) (item : json) (name : key) :
  Spec.valid_provider api ->
  get_emission_data api period = Ok results ->
  In (c, category_key) categories ->
  Spec.items_of api period category_key = before ++ item :: after ->
  Spec.record_name item = Some name ->
  (forall item' name', In item' after ->
     Spec.record_name item' = Some name' -> key_eqb name' name = false) ->
  Spec.entry results name c = Some (Spec.record_value item) /\
  PyDict.wf key_eqb results /\
  (forall sector inner, In (sector, inner) results ->
     PyDict.wf String.eqb inner).
Proof.
  intros Hv Hret Hin Hitems Hname Hafter.
  destruct (get_emission_data_entry api period results Hv Hret)
    as (_ & [Hwf Hinner] & He).
  split; [|split]; auto.
  destruct (He c category_key Hin) as [_ Hentry].
  assert (Hn : valid_key name = true).
  { apply (record_name_valid item); auto.
    pose proof (items_of_valid api period category_key Hv) as Hall.
    rewrite Hitems in Hall. rewrite forallb_forall in Hall.
    apply Hall. apply in_or_app. right. now left. }
  rewrite (Hentry name Hn), Hitems.
  apply last_value_app with name; auto. apply key_eqb_refl.
Qed.

Lemma last_record_wins_witness :
  Spec.entry example_results (KStr "Industrie") "total" = Some JNull.
Proof.
  apply (last_record_wins example_api "2024JJ00" example_results
           "total" "T001372"
           [ JObj [("Klimaatsector", JStr "T001616");
                   ("EmissieBroeikasgassen_1", JFloat one_hundred_fifty)];
             JObj [("Klimaatsector", JStr "A050123");
                   ("EmissieBroeikasgassen_1", JFloat ten)];
             JObj [("Klimaatsector", JStr "X999");
                   ("EmissieBroeikasgassen_1", JFloat three)] ]
           [ JObj [("Klimaatsector", JStr "A050126")] ]
           (JObj [("Klimaatsector", JStr "A050123");
                  ("EmissieBroeikasgassen_1", JNull)])
           (KStr "Industrie")).
  - exact example_api_valid.
  - reflexivity.
  - now left.
  - reflexivity.
  - reflexivity.
  - intros item' name' [<-|[]] [= <-]. reflexivity.
Defined.

(** C5.  The name of a sector code is the canonical name when the code is
    one of the six keys of the catalog and the code itself otherwise; for
    every code that can be a key (a string, a number, a boolean, null) the
    lookup returns. *)
Theorem sector_name_for_catalog (sector_key : json) (k : key) :
  hash sector_key = Ok k ->
  List.length (PyDict.keys sectors) = 6%nat /\
  exists name,
    sector_name_for sector_key = Ok name /\
    (forall code canonical,
       sector_key = JStr code -> In (code, canonical) sectors ->
       name = KStr canonical) /\
    ((forall code, sector_key = JStr code -> ~ In code (PyDict.keys sectors)) ->
     name = k).
Proof.
  intros Hh. split; [reflexivity|].
  assert (Hwf : PyDict.wf String.eqb sectors) by (cbn; tauto).
  destruct sector_key as [|b|z|x|code|l|o]; cbn [hash] in Hh;
    try discriminate; injection Hh as <-.
  5: {
    unfold sector_name_for. cbn [hash bind].
    destruct (PyDict.lookup String.eqb sectors code) as [name|] eqn:Hl.
    - exists (KStr name). split; [reflexivity|]. split.
      + intros code' canonical [= <-] Hin.
        apply (In_lookup sectors code canonical Hwf) in Hin. congruence.
      + intros Hnot. exfalso. apply (Hnot code eq_refl).
        apply lookup_In in Hl. unfold PyDict.keys.
        change code with (fst (code, name)). now apply in_map.
    - exists (KStr code). split; [reflexivity|]. split; auto.
      intros code' canonical [= <-] Hin.
      apply (In_lookup sectors code canonical Hwf) in Hin. congruence. }
  all: eexists; split; [reflexivity|]; split; [discriminate|reflexivity].
Qed.

Lemma sector_name_for_catalog_witness :
  sector_name_for (JStr "A050127") = Ok (KStr "Gebouwde omgeving") /\
  sector_name_for (JStr "B000001") = Ok (KStr "B000001").
Proof.
  split.
  - destruct (sector_name_for_catalog (JStr "A050127") (KStr "A050127") eq_refl)
      as (_ & name & -> & Hknown & _).
    f_equal. apply (Hknown "A050127"); [reflexivity|].
    cbn. tauto.
  - destruct (sector_name_for_catalog (JStr "B000001") (KStr "B000001") eq_refl)
      as (_ & name & -> & _ & Hunknown).
    f_equal. apply Hunknown.
    intros code [= <-]. cbn.
    intros [H|[H|[H|[H|[H|[H|[]]]]]]]; discriminate.
Defined.

(** The code of the row of totals never becomes a key. *)
Lemma records_no_total (c : string) (items : list json) :
  forall results results',
    PyDict.lookup key_eqb results (KStr total_row) = None ->
    records c results items = Ok results' ->
    PyDict.lookup key_eqb results' (KStr total_row) = None.
Proof.
  induction items as [|item rest IH]; cbn [records].
  - now intros results results' H [= <-].
  - intros results results' H0.
    destruct (record c results item) as [r1|] eqn:H1; [|discriminate].
    cbn [bind]. apply IH.
    rewrite (record_spec c results item) in H1
      by (now apply record_Ok_storable in H1).
    injection H1 as <-.
    destruct (Spec.record_name item) as [name|] eqn:Hname; auto.
    unfold store. apply lookup_set_None; auto.
    now apply record_name_not_total with item.
Qed.

Lemma category_loop_no_total api period (entries : sdict string) :
  forall results results',
    PyDict.lookup key_eqb results (KStr total_row) = None ->
    category_loop api period results entries = Ok results' ->
    PyDict.lookup key_eqb results' (KStr total_row) = None.
Proof.
  induction entries as [|[c0 key0] rest IH]; cbn [category_loop].
  - now intros results results' H [= <-].
  - intros results results' H0.
    destruct (category api period results (c0, key0)) as [r1|] eqn:H1;
      [|discriminate].
    cbn [bind]. apply IH.
    apply category_Ok in H1 as [_ H1].
    now apply records_no_total in H1.
Qed.

(** C6.  A record whose sector code is the code of the row of totals is
    discarded: the loop goes on as if the record were not there, whatever
    the category and whatever was stored before, and the returned mapping
    has no key for that code. *)
Theorem total_row_discarded (api : provider) (period : string)
    (results : emissions) :
  get_emission_data api period = Ok results ->
  PyDict.mem key_eqb results (KStr total_row) = false /\
  (forall c stored before o after,
     sector_key_of o = JStr total_row ->
     records c stored (before ++ JObj o :: after) =
     records c stored (before ++ after)).
Proof.
  intros Hret. split.
  - unfold PyDict.mem.
    now rewrite (category_loop_no_total api period categories [] results
                   eq_refl Hret).
  - intros c stored before o after Ho. revert stored.
    induction before as [|b rest IH]; intros stored; cbn [app records].
    + cbn [record]. rewrite Ho. cbn [eq_str].
      now rewrite String.eqb_refl.
    + destruct (record c stored b); cbn [bind]; auto.
Qed.

Lemma total_row_discarded_witness :
  PyDict.mem key_eqb example_results (KStr "T001616") = false /\
  records "total" []
    [ JObj [("Klimaatsector", JStr "T001616");
            ("EmissieBroeikasgassen_1", JFloat one_hundred_fifty)];
      JObj [("Klimaatsector", JStr "A050126")] ] =
  records "total" [] [ JObj [("Klimaatsector", JStr "A050126")] ].
Proof.
  destruct (total_row_discarded example_api "2024JJ00" example_results eq_refl)
    as [Hkey Hrow].
  split; [exact Hkey|].
  apply (Hrow "total" [] []). reflexivity.
Defined.

(** C9.  The value stored for a record is the value of its emissions
    field whenever the field is present, a null included; 0.0 is stored
    only when the record has no such field. *)
Theorem null_value_stored (api : provider) (period : string)
    (results : emissions) (c category_key : string)
    (before after : list json) (o : sdict json) (name : key) :
  Spec.valid_provider api ->
  get_emission_data api period = Ok results ->
  In (c, category_key) categories ->
  Spec.items_of api period category_key = before ++ JObj o :: after ->
  Spec.record_name (JObj o) = Some name ->
  (forall item' name', In item' after ->
     Spec.record_name item' = Some name' -> key_eqb name' name = false) ->
  (forall v, PyDict.lookup String.eqb o "EmissieBroeikasgassen_1" = Some v ->
     Spec.entry results name c = Some v) /\
  (PyDict.lookup String.eqb o "EmissieBroeikasgassen_1" = Some JNull ->
     Spec.entry results name c = Some JNull) /\
  (PyDict.lookup String.eqb o "EmissieBroeikasgassen_1" = None ->
     Spec.entry results name c = Some (JFloat zero)).
Proof.
  intros Hv Hret Hin Hitems Hname Hafter.
  destruct (get_emission_data_entry api period results Hv Hret)
    as (_ & _ & He).
  destruct (He c category_key Hin) as [_ Hentry].
  assert (Hn : valid_key name = true).
  { apply (record_name_valid (JObj o)); auto.
    pose proof (items_of_valid api period category_key Hv) as Hall.
    rewrite Hitems in Hall. rewrite forallb_forall in Hall.
    apply Hall. apply in_or_app. right. now left. }
  assert (E : Spec.entry results name c = Some (value_of o)).
  { rewrite (Hentry name Hn), Hitems.
    apply (last_value_app before after (JObj o) name name); auto.
    apply key_eqb_refl. }
  rewrite E. unfold value_of, PyDict.get.
  split; [|split]; intros; now rewrite H.
Qed.

Lemma null_value_stored_witness :
  Spec.entry example_results (KStr "Industrie") "total" = Some JNull /\
  Spec.entry example_results (KStr "Landbouw") "total" = Some (JFloat zero).
Proof.
  split.
  - apply (null_value_stored example_api "2024JJ00" example_results
             "total" "T001372"
             [ JObj [("Klimaatsector", JStr "T001616");
                     ("EmissieBroeikasgassen_1", JFloat one_hundred_fifty)];
               JObj [("Klimaatsector", JStr "A050123");
                     ("EmissieBroeikasgassen_1", JFloat ten)];
               JObj [("Klimaatsector", JStr "X999");
                     ("EmissieBroeikasgassen_1", JFloat three)] ]
             [ JObj [("Klimaatsector", JStr "A050126")] ]
             [("Klimaatsector", JStr "A050123");
              ("EmissieBroeikasgassen_1", JNull)]
             (KStr "Industrie")); try reflexivity.
    + exact example_api_valid.
    + now left.
    + intros item' name' [<-|[]] [= <-]. reflexivity.
  - apply (null_value_stored example_api "2024JJ00" example_results
             "total" "T001372"
             [ JObj [("Klimaatsector", JStr "T001616");
                     ("EmissieBroeikasgassen_1", JFloat one_hundred_fifty)];
               JObj [("Klimaatsector", JStr "A050123");
                     ("EmissieBroeikasgassen_1", JFloat ten)];
               JObj [("Klimaatsector", JStr "X999");
                     ("EmissieBroeikasgassen_1", JFloat three)];
               JObj [("Klimaatsector", JStr "A050123");
                     ("EmissieBroeikasgassen_1", JNull)] ]
             []
             [("Klimaatsector", JStr "A050126")]
             (KStr "Landbouw")); try reflexivity.
    + exact example_api_valid.
    + now left.
    + intros item' name' [].
Defined.

(** * Rounding *)

Section RoundHalfEven.
Variables A D : Z.
Hypothesis D_pos : 0 < D.
Hypothesis A_nonneg : 0 <= A.

Lemma rhe_cases :
  let m := round_half_even A D in
  A / D <= m <= A / D + 1 /\ Z.abs (2 * (m * D - A)) <= D.
Proof.
  unfold round_half_even.
  pose proof (Z.div_mod A D ltac:(lia)) as Hdm.
  pose proof (Z.mod_pos_bound A D D_pos) as Hr.
  destruct (Z.compare_spec (2 * (A mod D)) D) as [E|E|E];
    [destruct (Z.even (A / D))| |]; split; nia.
Qed.

Lemma rhe_nonneg : 0 <= round_half_even A D.
Proof.
  pose proof rhe_cases as [[H _] _].
  pose proof (Z.div_pos A D A_nonneg D_pos). lia.
Qed.

(** No integer multiple of [D] is closer to [A]. *)
Lemma rhe_nearest (k : Z) :
  Z.abs (round_half_even A D * D - A) <= Z.abs (k * D - A).
Proof.
  pose proof rhe_cases as [_ H]. cbv zeta in H.
  remember (round_half_even A D) as m.
  destruct (Z.eq_dec k m) as [->|Hne]; [lia|].
  assert (D <= Z.abs ((k - m) * D)) by nia.
  nia.
Qed.

Lemma rhe_le (k : Z) : A <= k * D -> round_half_even A D <= k.
Proof.
  intros Hk. unfold round_half_even.
  pose proof (Z.div_mod A D ltac:(lia)) as Hdm.
  pose proof (Z.mod_pos_bound A D D_pos) as Hr.
  assert (A / D <= k) by nia.
  destruct (Z.eq_dec (A / D) k) as [E|E].
  - assert (A mod D = 0) by nia.
    destruct (Z.compare_spec (2 * (A mod D)) D); lia.
  - destruct (Z.compare_spec (2 * (A mod D)) D);
      [destruct (Z.even (A / D))| |]; lia.
Qed.

Lemma rhe_ge (k : Z) : k * D <= A -> k <= round_half_even A D.
Proof.
  intros Hk. pose proof rhe_cases as [[H _] _]. cbv zeta in H.
  pose proof (Z.div_mod A D ltac:(lia)) as Hdm.
  pose proof (Z.mod_pos_bound A D D_pos) as Hr.
  assert (k <= A / D) by nia. lia.
Qed.
End RoundHalfEven.

Lemma rhe_exact (k D : Z) : 0 < D -> round_half_even (k * D) D = k.
Proof.
  intros HD. unfold round_half_even.
  rewrite Z.div_mul, Z.mod_mul by lia.
  destruct (Z.compare_spec (2 * 0) D); lia.
Qed.

(** * Division with a float result *)

Lemma pow2_53 : 2 ^ 53 = 2 * 2 ^ 52.
Proof. reflexivity. Qed.

Lemma pow2_succ (n : Z) : 0 <= n -> 2 ^ (n + 1) = 2 * 2 ^ n.
Proof. intros. rewrite Z.pow_add_r by lia. change (2 ^ 1) with 2. ring. Qed.

Lemma digits2_le (p : positive) (n : Z) :
  0 <= n -> Zpos p < 2 ^ n -> Zpos (digits2_pos p) <= n.
Proof.
  intros Hn Hp. rewrite digits2_log2.
  apply Z.log2_lt_pow2 in Hp; lia.
Qed.

Lemma digits2_ge (p : positive) (n : Z) :
  0 <= n -> 2 ^ n <= Zpos p -> n + 1 <= Zpos (digits2_pos p).
Proof.
  intros Hn Hp. rewrite digits2_log2.
  apply Z.log2_le_pow2 in Hp; lia.
Qed.

Section TrueDivide.
Variable s : bool.
Variables a b : positive.

Let A : Z := Zpos a * 2 ^ 1074.
Let ex : Z := fexp prec emax (Z.log2 (A / Zpos b) - 1074 + 1).
Let D : Z := Zpos b * 2 ^ (ex + 1074).
Let m0 : Z := round_half_even A D.

Lemma binade_exponent : ex + 1074 = Z.max (Z.log2 (A / Zpos b) - 52) 0.
Proof. unfold ex, fexp, SpecFloat.emin, prec, emax. lia. Qed.

Lemma A_nonneg : 0 <= A.
Proof. unfold A. pose proof (pow2_pos 1074). nia. Qed.

Lemma D_pos : 0 < D.
Proof.
  unfold D. pose proof binade_exponent.
  pose proof (pow2_pos (ex + 1074)). nia.
Qed.

(** The quotient lies below the end of its binade ... *)
Lemma binade_upper : A < 2 ^ 53 * D.
Proof.
  pose proof binade_exponent as HE. pose proof A_nonneg as HA.
  set (Qz := A / Zpos b) in *.
  assert (HQ : 0 <= Qz) by (apply Z.div_pos; lia).
  assert (Hlt : Qz < 2 ^ (Z.log2 Qz + 1)).
  { destruct (Z.eq_dec Qz 0) as [->|Hne]; [reflexivity|].
    apply (Z.log2_spec Qz). lia. }
  assert (Hle : 2 ^ (Z.log2 Qz + 1) <= 2 ^ (53 + (ex + 1074))).
  { apply Z.pow_le_mono_r; [lia|]. pose proof (Z.log2_nonneg Qz). lia. }
  rewrite (Z.pow_add_r 2 53 (ex + 1074)) in Hle by lia.
  pose proof (Z.div_mod A (Zpos b) ltac:(lia)) as Hdm.
  pose proof (Z.mod_pos_bound A (Zpos b) ltac:(lia)) as Hr.
  fold Qz in Hdm. unfold D.
  remember (2 ^ 53 * 2 ^ (ex + 1074)) as k.
  assert (A < Zpos b * k) by nia. nia.
Qed.

(** ... and, in the normal range, from its start on. *)
Lemma binade_lower : 0 < ex + 1074 -> 2 ^ 52 * D <= A.
Proof.
  pose proof binade_exponent as HE. intros Hpos.
  set (Qz := A / Zpos b) in *.
  assert (HL : 52 < Z.log2 Qz) by lia.
  assert (Hge : 2 ^ Z.log2 Qz <= Qz).
  { apply (Z.log2_spec Qz).
    destruct (Z.le_gt_cases Qz 0) as [Hn|]; [|assumption].
    rewrite (Z.log2_nonpos Qz Hn) in HL. lia. }
  assert (Hpow : 2 ^ Z.log2 Qz = 2 ^ 52 * 2 ^ (ex + 1074)).
  { rewrite <- Z.pow_add_r by lia. f_equal. lia. }
  pose proof (Z.div_mod A (Zpos b) ltac:(lia)) as Hdm.
  pose proof (Z.mod_pos_bound A (Zpos b) ltac:(lia)) as Hr.
  fold Qz in Hdm. unfold D. rewrite Hpow in Hge.
  remember (2 ^ 52 * 2 ^ (ex + 1074)) as k. nia.
Qed.

Lemma mantissa_bounds :
  0 <= m0 <= 2 ^ 53 /\ (0 < ex + 1074 -> 2 ^ 52 <= m0).
Proof.
  pose proof D_pos as HD. pose proof A_nonneg as HA.
  pose proof binade_upper as Hu.
  split; [split|].
  - now apply rhe_nonneg.
  - apply rhe_le; lia.
  - intros Hpos. apply rhe_ge; auto. now apply binade_lower.
Qed.

(** A quotient that is not above the largest float gives a valid finite
    float with the sign asked for and the rounded mantissa. *)
Lemma true_divide_value :
  A <= max_units * Zpos b ->
  exists r,
    Statistics.true_divide s a b = Ok r /\
    valid r = true /\ is_finite r = true /\
    scaled r = cond_Zopp s (m0 * 2 ^ (ex + 1074)) /\
    (is_zero r = true -> r = S754_zero s).
Proof.
  intros Hmax.
  pose proof binade_exponent as HE. pose proof mantissa_bounds as [Hm Hn].
  pose proof D_pos as HD. pose proof A_nonneg as HA.
  assert (Hex : ex <= 971 /\ (ex = 971 -> m0 < 2 ^ 53)).
  { set (Qz := A / Zpos b) in *.
    assert (HQ : Qz <= max_units).
    { apply Z.div_le_upper_bound; lia. }
    assert (HL : Z.log2 Qz < 2098).
    { destruct (Z.eq_dec Qz 0) as [->|Hne]; [reflexivity|].
      assert (0 <= Qz) by (apply Z.div_pos; lia).
      apply Z.log2_lt_pow2; [lia|].
      eapply Z.le_lt_trans; [exact HQ|]. reflexivity. }
    split; [lia|]. intros E971.
    assert (m0 <= 2 ^ 53 - 1); [|lia].
    apply rhe_le; auto. unfold D. rewrite E971.
    change (971 + 1074) with 2045. unfold max_units in Hmax. lia. }
  destruct Hex as [Hex Htop].
  unfold Statistics.true_divide. fold A. fold ex. fold D. fold m0.
  change (2 ^ prec) with (2 ^ 53). change (emax - prec) with 971.
  destruct (Z.eqb_spec m0 (2 ^ 53)) as [E53|N53].
  - change (2 ^ (prec - 1)) with (Zpos 4503599627370496).
    assert (ex + 1 <= 971) by lia.
    destruct (Z.leb_spec (ex + 1) 971); [|lia].
    eexists. split; [reflexivity|]. split; [|split; [reflexivity|split]].
    + apply bounded_intro; [lia|now cbv|right; now cbv].
    + cbn [scaled]. f_equal. rewrite E53.
      change (Zpos 4503599627370496) with (2 ^ 52).
      replace (ex + 1 + 1074) with (ex + 1074 + 1) by lia.
      rewrite pow2_succ, pow2_53 by lia. ring.
    + discriminate.
  - destruct m0 as [|p|p] eqn:Em0.
    + eexists. split; [reflexivity|]. repeat split.
      destruct s; reflexivity.
    + destruct (Z.leb_spec ex 971); [|lia].
      eexists. split; [reflexivity|]. split; [|split; [reflexivity|split]].
      * apply bounded_intro; [lia| |].
        -- apply digits2_le; lia.
        -- destruct (Z.eq_dec ex (-1074)) as [|Hne]; [now left|right].
           assert (52 + 1 <= Zpos (digits2_pos p))
             by (apply digits2_ge; lia).
           assert (Zpos (digits2_pos p) <= 53) by (apply digits2_le; lia).
           lia.
      * reflexivity.
      * discriminate.
    + lia.
Qed.

(** No valid finite float is closer to the quotient. *)
Lemma true_divide_nearest (r y : float) :
  A <= max_units * Zpos b ->
  Statistics.true_divide s a b = Ok r ->
  valid y = true -> is_finite y = true ->
  Z.abs (scaled r * Zpos b - cond_Zopp s A) <=
  Z.abs (scaled y * Zpos b - cond_Zopp s A).
Proof.
  intros Hmax Hr Hy Fy.
  destruct (true_divide_value Hmax) as (r' & Hr' & _ & _ & Hs & _).
  rewrite Hr in Hr'. injection Hr' as <-. rewrite Hs.
  pose proof binade_exponent as HE. pose proof mantissa_bounds as [Hm Hn].
  pose proof D_pos as HD. pose proof A_nonneg as HA.
  pose proof binade_upper as Hu.
  pose proof (pow2_pos (ex + 1074) ltac:(lia)) as Hp.
  set (Y := cond_Zopp s (scaled y)).
  assert (Hgoal : Z.abs (m0 * D - A) <= Z.abs (Y * Zpos b - A)).
  { destruct (Z.le_gt_cases Y 0) as [Hneg|Hpos].
    - pose proof (rhe_nearest A D HD 0) as H0. fold m0 in H0. nia.
    - assert (Hmag : exists my ey,
                Y = Zpos my * 2 ^ (ey + 1074) /\ -1074 <= ey /\
                Zpos my < 2 ^ 53).
      { destruct y as [sy|sy| |sy my ey]; try discriminate.
        - unfold Y in Hpos. cbn [scaled] in Hpos. destruct s; cbn in Hpos; lia.
        - cbn [valid valid_binary] in Hy.
          apply bounded_inv in Hy as (He & Hd & _).
          pose proof (digits2_bounds my) as [_ Hb].
          assert (Zpos my < 2 ^ 53).
          { eapply Z.lt_le_trans; [exact Hb|].
            apply Z.pow_le_mono_r; lia. }
          exists my, ey. split; [|split; [lia|assumption]].
          pose proof (pow2_pos (ey + 1074) ltac:(lia)).
          unfold Y in *. cbn [scaled] in *.
          destruct s, sy; unfold cond_Zopp in *; nia. }
      destruct Hmag as (my & ey & HY & Hey & Hmy).
      destruct (Z.le_gt_cases (ex + 1074) (ey + 1074)) as [Hge|Hlt].
      + pose proof (rhe_nearest A D HD
                      (Zpos my * 2 ^ (ey - ex))) as Hk.
        fold m0 in Hk.
        assert (EY : Y * Zpos b = Zpos my * 2 ^ (ey - ex) * D).
        { rewrite HY. unfold D.
          replace (ey + 1074) with ((ey - ex) + (ex + 1074)) by lia.
          rewrite Z.pow_add_r by lia. ring. }
        now rewrite EY.
      + pose proof (rhe_nearest A D HD (2 ^ 52)) as Hk. fold m0 in Hk.
        pose proof (binade_lower ltac:(lia)) as Hlow.
        assert (HYlt : Y * Zpos b < 2 ^ 52 * D).
        { rewrite HY. unfold D.
          assert (Hpw : 2 * 2 ^ (ey + 1074) <= 2 ^ (ex + 1074)).
          { rewrite <- pow2_succ by lia. apply Z.pow_le_mono_r; lia. }
          pose proof (pow2_pos (ey + 1074) ltac:(lia)).
          rewrite pow2_53 in Hmy.
          remember (2 ^ (ey + 1074)) as u. remember (2 ^ (ex + 1074)) as v.
          remember (2 ^ 52) as w.
          assert (Zpos my * u < w * v) by nia. nia. }
        nia. }
  replace (cond_Zopp s (m0 * 2 ^ (ex + 1074)) * Zpos b - cond_Zopp s A)
    with (cond_Zopp s (m0 * D - A))
    by (unfold D; destruct s; unfold cond_Zopp; ring).
  replace (scaled y * Zpos b - cond_Zopp s A)
    with (cond_Zopp s (Y * Zpos b - A))
    by (unfold Y; destruct s; unfold cond_Zopp; ring).
  destruct s; unfold cond_Zopp; lia.
Qed.

(** A quotient that is a float is returned as it is. *)
Lemma true_divide_exact (m : positive) (e : Z) :
  bounded prec emax m e = true ->
  A = Zpos m * 2 ^ (e + 1074) * Zpos b ->
  Statistics.true_divide s a b = Ok (S754_finite s m e).
Proof.
  intros Hb HA.
  pose proof (bounded_inv _ _ Hb) as (He & Hd & Hn).
  pose proof (pow2_pos (e + 1074) ltac:(lia)) as Hp.
  assert (Hex : ex = e).
  { unfold ex. rewrite HA, Z.div_mul by lia.
    rewrite Z.log2_mul_pow2 by lia.
    pose proof (digits2_log2 m).
    unfold fexp, SpecFloat.emin, prec, emax. lia. }
  assert (Hm0 : m0 = Zpos m).
  { unfold m0, D. rewrite Hex, HA.
    replace (Zpos m * 2 ^ (e + 1074) * Zpos b)
      with (Zpos m * (Zpos b * 2 ^ (e + 1074))) by ring.
    apply rhe_exact. nia. }
  unfold Statistics.true_divide. fold A. fold ex. fold D. fold m0.
  rewrite Hm0, Hex.
  change (2 ^ prec) with (2 ^ 53). change (emax - prec) with 971.
  pose proof (digits2_bounds m) as [_ Hlt].
  assert (Zpos m < 2 ^ 53).
  { eapply Z.lt_le_trans; [exact Hlt|]. apply Z.pow_le_mono_r; lia. }
  destruct (Z.eqb_spec (Zpos m) (2 ^ 53)); [lia|].
  destruct (Z.leb_spec e 971); [reflexivity|lia].
Qed.
End TrueDivide.

(** * Floats and rationals *)

Lemma exact_value_scaled (y : float) :
  valid y = true ->
  (Statistics.exact_value y * inject_Z (2 ^ 1074) == inject_Z (scaled y))%Q.
Proof.
  destruct y as [sy|sy| |sy my ey]; cbn [Statistics.exact_value scaled];
    try (intros _; unfold Qeq, Qmult, inject_Z; cbn [Qnum Qden]; ring).
  cbn [valid valid_binary]. intros Hb.
  apply bounded_inv in Hb as (He & _).
  rewrite cond_Zopp_mul.
  destruct ey as [|p|p]; unfold Qeq, Qmult, inject_Z; cbn [Qnum Qden].
  - replace (0 + 1074) with 1074 by lia. change (2 ^ 0) with 1.
    change (Zpos (1 * 1)) with 1. ring.
  - rewrite Z.pow_add_r by lia. change (Zpos (1 * 1)) with 1. ring.
  - rewrite Pos.mul_1_r, Pos2Z.inj_pow.
    assert (E : 2 ^ 1074 = 2 ^ (Zneg p + 1074) * 2 ^ Zpos p).
    { rewrite <- Z.pow_add_r by lia. f_equal. lia. }
    rewrite E. change (Zpos 2) with 2. ring.
Qed.

Lemma inject_Z_minus (x y : Z) :
  inject_Z (x - y) = (inject_Z x - inject_Z y)%Q.
Proof. unfold Z.sub. now rewrite inject_Z_plus, inject_Z_opp. Qed.

Lemma Qabs_inject_Z (z : Z) : Qabs (inject_Z z) = inject_Z (Z.abs z).
Proof. reflexivity. Qed.

(** Comparing distances after scaling to integers. *)
Lemma Qabs_le_scaled (x y c : Q) (u w : Z) :
  (0 < c)%Q ->
  (x * c == inject_Z u)%Q -> (y * c == inject_Z w)%Q ->
  Z.abs u <= Z.abs w ->
  (Qabs x <= Qabs y)%Q.
Proof.
  intros Hc Hx Hy Huw.
  apply (Qmult_le_r _ _ c Hc).
  assert (Habs : forall t, (Qabs t * c == Qabs (t * c))%Q).
  { intros t. rewrite Qabs_Qmult, (Qabs_pos c); [reflexivity|].
    now apply Qlt_le_weak. }
  rewrite !Habs, Hx, Hy, !Qabs_inject_Z.
  now rewrite <- Zle_Qle.
Qed.

Lemma Qred_num_den (q : Q) :
  (q * inject_Z (Zpos (Qden (Qred q))) == inject_Z (Qnum (Qred q)))%Q.
Proof.
  rewrite <- (Qred_correct q) at 1.
  destruct (Qred q) as [n d]. unfold Qeq, Qmult, inject_Z; cbn [Qnum Qden].
  rewrite Pos.mul_1_r. ring.
Qed.

Lemma in_range_Qred (q : Q) :
  in_range q ->
  Z.abs (Qnum (Qred q)) * 2 ^ 1074 <= max_units * Zpos (Qden (Qred q)).
Proof.
  unfold in_range. rewrite <- (Qred_correct q) at 1.
  destruct (Qred q) as [n d].
  unfold Qle, Qmult, Qabs, inject_Z; cbn [Qnum Qden].
  rewrite Pos.mul_1_r. lia.
Qed.

(** [float(Fraction)] of a rational in range is a valid finite float
    closest to it. *)
Lemma float_of_fraction_nearest (q : Q) :
  in_range q ->
  exists r,
    Statistics.float_of_fraction q = Ok r /\
    valid r = true /\ is_finite r = true /\ Spec.nearest r q.
Proof.
  intros Hq. apply in_range_Qred in Hq.
  pose proof (Qred_num_den q) as Hnd.
  unfold Statistics.float_of_fraction.
  destruct (Qred q) as [n d]. cbn [Qnum Qden] in *.
  assert (Hnear : forall (s : bool) (a : positive) (r : float),
            n = cond_Zopp s (Zpos a) ->
            Statistics.true_divide s a d = Ok r ->
            Spec.nearest r q).
  { intros s a r Hn Hr y Hy Fy.
    assert (Hmax : Zpos a * 2 ^ 1074 <= max_units * Zpos d).
    { subst n. destruct s; unfold cond_Zopp in Hq; lia. }
    destruct (true_divide_value s a d Hmax) as (r' & Hr' & Vr & _).
    rewrite Hr in Hr'. injection Hr' as <-.
    pose proof (true_divide_nearest s a d r y Hmax Hr Hy Fy) as Hz.
    rewrite cond_Zopp_mul, <- Hn in Hz.
    pose proof (pow2_pos 1074 ltac:(lia)) as Hp.
    apply (Qabs_le_scaled _ _ (inject_Z (2 ^ 1074) * inject_Z (Zpos d))
             (scaled r * Zpos d - n * 2 ^ 1074)
             (scaled y * Zpos d - n * 2 ^ 1074)); [| | |exact Hz].
    - rewrite <- inject_Z_mult. change 0%Q with (inject_Z 0).
      rewrite <- Zlt_Qlt. lia.
    - rewrite inject_Z_minus, !inject_Z_mult.
      rewrite <- (exact_value_scaled r Vr), <- Hnd. ring.
    - rewrite inject_Z_minus, !inject_Z_mult.
      rewrite <- (exact_value_scaled y Hy), <- Hnd. ring. }
  destruct n as [|a|a].
  - exists zero. repeat split.
    intros y Hy Fy.
    assert (Hq0 : (q == 0)%Q).
    { assert (H0 : (q * inject_Z (Zpos d) == 0)%Q) by exact Hnd.
      apply Qmult_integral in H0 as [H0|H0]; [exact H0|discriminate]. }
    rewrite Hq0. cbn [Statistics.exact_value zero].
    apply Qabs_nonneg.
  - destruct (true_divide_value false a d) as (r & Hr & Vr & Fr & _).
    { cbn [Z.abs] in Hq. lia. }
    exists r. repeat split; auto. now apply (Hnear false a).
  - destruct (true_divide_value true a d) as (r & Hr & Vr & Fr & _).
    { cbn [Z.abs] in Hq. lia. }
    exists r. repeat split; auto. now apply (Hnear true a).
Qed.

(** [float(Fraction)] of the value of a float gives the float back, the
    positive zero for a zero. *)
Lemma float_of_fraction_exact (q : Q) (v : float) :
  valid v = true -> is_finite v = true ->
  (q == Statistics.exact_value v)%Q ->
  Statistics.float_of_fraction q = Ok (if is_zero v then zero else v).
Proof.
  intros Vv Fv Hq.
  pose proof (Qred_num_den q) as Hnd.
  pose proof (exact_value_scaled v Vv) as Hs.
  rewrite <- Hq in Hs.
  assert (Hz : Qnum (Qred q) * 2 ^ 1074 = scaled v * Zpos (Qden (Qred q))).
  { apply inject_Z_injective. rewrite !inject_Z_mult, <- Hnd, <- Hs. ring. }
  unfold Statistics.float_of_fraction.
  destruct (Qred q) as [n d]. cbn [Qnum Qden] in *.
  pose proof (pow2_pos 1074 ltac:(lia)) as Hp.
  destruct v as [sv|sv| |sv mv ev]; try discriminate; cbn [is_zero].
  - cbn [scaled] in Hz. assert (n = 0) by nia. now subst n.
  - cbn [valid valid_binary] in Vv.
    pose proof (bounded_inv _ _ Vv) as (He & _).
    pose proof (pow2_pos (ev + 1074) ltac:(lia)) as Hpe.
    cbn [scaled] in Hz.
    destruct n as [|a|a].
    + exfalso. destruct sv; unfold cond_Zopp in Hz; nia.
    + destruct sv; [exfalso; unfold cond_Zopp in Hz; nia|].
      apply true_divide_exact; auto; unfold cond_Zopp in Hz; lia.
    + destruct sv; [|exfalso; unfold cond_Zopp in Hz; nia].
      apply true_divide_exact; auto; unfold cond_Zopp in Hz; lia.
Qed.

(** * [statistics.mean] *)

Lemma float_of_fraction_wd (q q' : Q) :
  (q == q')%Q -> Statistics.float_of_fraction q = Statistics.float_of_fraction q'.
Proof.
  intros H. unfold Statistics.float_of_fraction.
  now rewrite (Qred_complete _ _ H).
Qed.

Lemma nearest_wd (r : float) (q q' : Q) :
  (q == q')%Q -> Spec.nearest r q -> Spec.nearest r q'.
Proof.
  intros H Hn y Hy Fy. rewrite <- H. now apply Hn.
Qed.

(** The partial sums of finite values: an exact total and nothing else. *)
Lemma fold_add_value_finite (values : list float) :
  forallb is_finite values = true ->
  forall acc,
  exists total,
    fold_left Statistics.add_value values (acc, None) = (total, None) /\
    (total == acc + exact_sum values)%Q.
Proof.
  induction values as [|x rest IH]; cbn [forallb fold_left exact_sum map fold_right].
  - intros _ acc. exists acc. split; [reflexivity|ring].
  - intros H acc. apply andb_prop in H as [Hx Hrest].
    unfold Statistics.add_value at 2. rewrite Hx.
    destruct (IH Hrest (acc + Statistics.exact_value x)%Q) as (total & -> & Ht).
    exists total. split; [reflexivity|].
    rewrite Ht. unfold exact_sum. ring.
Qed.

Lemma mean_finite (values : list float) :
  values <> [] ->
  forallb is_finite values = true ->
  Statistics.mean values =
  Statistics.float_of_fraction
    (exact_sum values / inject_Z (Z.of_nat (List.length values))).
Proof.
  intros Hne Hfin. unfold Statistics.mean, Statistics.sum.
  destruct values as [|x rest]; [congruence|].
  destruct (fold_add_value_finite (x :: rest) Hfin 0%Q) as (total & -> & Ht).
  apply float_of_fraction_wd. rewrite Ht. field.
  change 0%Q with (inject_Z 0). rewrite inject_Z_injective.
  cbn [List.length]. lia.
Qed.

(** The values of a non-finite float add up to that float. *)
Lemma fold_add_value_special (v : float) (values : list float) :
  is_finite v = false ->
  Forall (fun x => x = v) values ->
  forall acc,
    fold_left Statistics.add_value values (acc, Some v) = (acc, Some v).
Proof.
  intros Hv Hall. induction Hall as [|x rest -> _ IH]; intros acc;
    cbn [fold_left]; [reflexivity|].
  unfold Statistics.add_value at 2. rewrite Hv.
  replace (SFadd prec emax v v) with v; [apply IH|].
  destruct v as [sv|sv| |sv mv ev]; try discriminate; try reflexivity.
  now destruct sv.
Qed.

Lemma exact_sum_constant (v : float) (values : list float) :
  Forall (fun x => x = v) values ->
  (exact_sum values ==
   inject_Z (Z.of_nat (List.length values)) * Statistics.exact_value v)%Q.
Proof.
  intros Hall. induction Hall as [|x rest -> _ IH];
    cbn [exact_sum map fold_right List.length].
  - cbn. ring.
  - fold (exact_sum rest). rewrite IH, Nat2Z.inj_succ.
    unfold Z.succ. rewrite inject_Z_plus. ring.
Qed.

(** The mean of one float repeated is that float, the positive zero for
    a zero. *)
Lemma mean_constant (v : float) (values : list float) :
  values <> [] ->
  valid v = true ->
  Forall (fun x => x = v) values ->
  Statistics.mean values = Ok (if is_zero v then zero else v).
Proof.
  intros Hne Vv Hall.
  destruct (is_finite v) eqn:Fv.
  - rewrite mean_finite; auto.
    + apply float_of_fraction_exact; auto.
      rewrite (exact_sum_constant v values Hall). field.
      change 0%Q with (inject_Z 0). rewrite inject_Z_injective.
      destruct values; [congruence|cbn [List.length]; lia].
    + apply forallb_forall. intros x Hx.
      rewrite Forall_forall in Hall. now rewrite (Hall x Hx).
  - destruct values as [|x rest]; [congruence|].
    apply Forall_cons_iff in Hall as [-> Hrest].
    unfold Statistics.mean, Statistics.sum. cbn [fold_left].
    unfold Statistics.add_value at 2. rewrite Fv.
    rewrite (fold_add_value_special v rest Fv Hrest).
    destruct v; try discriminate; reflexivity.
Qed.

(** ** Means stay in range *)

Lemma max_value_pos : (0 < inject_Z (2 ^ 1074))%Q.
Proof.
  change 0%Q with (inject_Z 0). rewrite <- Zlt_Qlt. now apply pow2_pos.
Qed.

Lemma in_range_iff (q : Q) : in_range q <-> (Qabs q <= max_value)%Q.
Proof.
  unfold in_range, max_value. split; intros H.
  - apply Qle_shift_div_l; [apply max_value_pos|exact H].
  - apply (Qmult_le_r _ _ _ max_value_pos) in H.
    eapply Qle_trans; [exact H|]. apply Qle_lteq. right.
    field. intros E. pose proof max_value_pos as Hp. rewrite E in Hp.
    now apply Qlt_irrefl in Hp.
Qed.

Lemma scaled_bound (v : float) :
  valid v = true -> Z.abs (scaled v) <= max_units.
Proof.
  assert (0 <= max_units) by (now cbv).
  destruct v as [sv|sv| |sv mv ev]; cbn [scaled]; try (intros _; lia).
  cbn [valid valid_binary]. intros Hb.
  apply bounded_inv in Hb as (He & Hd & _).
  pose proof (digits2_bounds mv) as [_ Hlt].
  assert (Hm : Zpos mv <= 2 ^ 53 - 1).
  { assert (Zpos mv < 2 ^ 53); [|lia].
    eapply Z.lt_le_trans; [exact Hlt|]. apply Z.pow_le_mono_r; lia. }
  assert (He' : 2 ^ (ev + 1074) <= 2 ^ 2045)
    by (apply Z.pow_le_mono_r; lia).
  pose proof (pow2_pos (ev + 1074) ltac:(lia)).
  unfold max_units.
  remember (2 ^ (ev + 1074)) as u. remember (2 ^ 2045) as w.
  remember (2 ^ 53 - 1) as t.
  assert (Zpos mv * u <= t * w) by nia.
  destruct sv; unfold cond_Zopp; lia.
Qed.

Lemma exact_value_in_range (v : float) :
  valid v = true -> (Qabs (Statistics.exact_value v) <= max_value)%Q.
Proof.
  intros Vv. apply in_range_iff. unfold in_range.
  assert (E : (Qabs (Statistics.exact_value v) * inject_Z (2 ^ 1074) ==
               Qabs (inject_Z (scaled v)))%Q).
  { rewrite <- (exact_value_scaled v Vv), Qabs_Qmult.
    rewrite (Qabs_pos (inject_Z (2 ^ 1074))); [reflexivity|].
    apply Qlt_le_weak, max_value_pos. }
  rewrite E, Qabs_inject_Z, <- Zle_Qle. now apply scaled_bound.
Qed.

Lemma exact_sum_bound (values : list float) :
  forallb valid values = true ->
  (Qabs (exact_sum values)
   <= inject_Z (Z.of_nat (List.length values)) * max_value)%Q.
Proof.
  induction values as [|x rest IH];
    cbn [forallb exact_sum map fold_right List.length].
  - intros _. cbn. discriminate.
  - intros H. apply andb_prop in H as [Hx Hrest].
    fold (exact_sum rest).
    eapply Qle_trans; [apply Qabs_triangle|].
    rewrite Nat2Z.inj_succ. unfold Z.succ. rewrite inject_Z_plus.
    setoid_replace ((inject_Z (Z.of_nat (List.length rest)) + inject_Z 1)
                    * max_value)%Q
      with (max_value
            + inject_Z (Z.of_nat (List.length rest)) * max_value)%Q by ring.
    apply Qplus_le_compat; [now apply exact_value_in_range|now apply IH].
Qed.

Lemma mean_in_range (values : list float) :
  values <> [] ->
  forallb valid values = true ->
  in_range (exact_sum values / inject_Z (Z.of_nat (List.length values))).
Proof.
  intros Hne Hv. apply in_range_iff.
  assert (Hn : (0 < inject_Z (Z.of_nat (List.length values)))%Q).
  { change 0%Q with (inject_Z 0). rewrite <- Zlt_Qlt.
    destruct values; [congruence|cbn [List.length]; lia]. }
  unfold Qdiv. rewrite Qabs_Qmult, Qabs_Qinv.
  rewrite (Qabs_pos (inject_Z _)) by now apply Qlt_le_weak.
  apply Qle_shift_div_r; [exact Hn|].
  rewrite Qmult_comm. now apply exact_sum_bound.
Qed.

(** * [compute_average] *)

Lemma values_by_key (data : sector_emissions) (category : string) :
  PyDict.wf String.eqb data ->
  map (fun vals => PyDict.get String.eqb vals category zero) (PyDict.values data)
  = map (Spec.sector_value data category) (PyDict.keys data).
Proof.
  intros Hwf. unfold PyDict.values, PyDict.keys. rewrite !map_map.
  apply map_ext_in. intros [sector vals] Hin. cbn [fst snd].
  unfold Spec.sector_value. now rewrite (In_lookup data sector vals Hwf Hin).
Qed.

(** C2.  Over data whose values for the category are finite floats,
    [compute_average] returns a float closest to the arithmetic mean of
    the values of the category over every sector key of the data, a sector
    without the category counting as 0.0; over empty data it returns
    0.0. *)
Theorem compute_average_mean (data : sector_emissions) (category : string) :
  PyDict.wf String.eqb data ->
  (forall sector, In sector (PyDict.keys data) ->
     valid (Spec.sector_value data category sector) = true /\
     is_finite (Spec.sector_value data category sector) = true) ->
  (data = [] -> compute_average data category = Ok zero) /\
  (data <> [] ->
   exists r,
     compute_average data category = Ok r /\
     valid r = true /\ is_finite r = true /\
     Spec.nearest r (Spec.arithmetic_mean data category)).
Proof.
  intros Hwf Hvals. split; [now intros ->|]. intros Hne.
  unfold compute_average. rewrite (values_by_key data category Hwf).
  set (values := map (Spec.sector_value data category) (PyDict.keys data)).
  assert (Hvne : values <> []).
  { destruct data; [congruence|discriminate]. }
  assert (Hv : forallb valid values = true /\ forallb is_finite values = true).
  { split; apply forallb_forall; intros x Hx;
      apply in_map_iff in Hx as (sector & <- & Hin);
      now apply Hvals. }
  destruct Hv as [Hv Hf].
  destruct (float_of_fraction_nearest _ (mean_in_range values Hvne Hv))
    as (r & Hr & Vr & Fr & Hnear).
  exists r. rewrite <- (mean_finite values Hvne Hf) in Hr.
  split; [|split; [|split]]; auto.
  - destruct values; [congruence|exact Hr].
  - eapply nearest_wd; [|exact Hnear].
    unfold Spec.arithmetic_mean, exact_sum, values.
    now rewrite map_map, length_map.
Qed.

Lemma compute_average_mean_witness :
  PyDict.wf String.eqb example_data /\
  exists r,
    compute_average example_data "total" = Ok r /\
    Spec.nearest r (Spec.arithmetic_mean example_data "total").
Proof.
  assert (Hwf : PyDict.wf String.eqb example_data) by (simpl; auto).
  split; [exact Hwf|].
  destruct (compute_average_mean example_data "total" Hwf) as [_ H].
  - intros sector [<-|[<-|[]]]; split; vm_compute; reflexivity.
  - destruct H as (r & Hr & _ & _ & Hnear);
      [unfold example_data; discriminate|].
    exists r. split; assumption.
Defined.

(** C8.  When every sector of non-empty data has the same value [v] for a
    category, [compute_average] returns [v]: a float equal to [v], and [v]
    itself unless [v] is the negative zero, whose mean is the positive
    zero. *)
Theorem compute_average_constant (data : sector_emissions) (category : string)
    (v : float) :
  data <> [] ->
  valid v = true ->
  (forall sector vals, In (sector, vals) (PyDict.items data) ->
     PyDict.get String.eqb vals category zero = v) ->
  exists r,
    compute_average data category = Ok r /\
    (is_nan v = false -> PyFloat.eqb r v = true) /\
    (v <> S754_zero true -> r = v).
Proof.
  intros Hne Vv Hall.
  set (values := map (fun vals => PyDict.get String.eqb vals category zero)
                   (PyDict.values data)).
  assert (Hvne : values <> []).
  { destruct data; [congruence|discriminate]. }
  assert (Hconst : Forall (fun x => x = v) values).
  { apply Forall_forall. intros x Hx.
    apply in_map_iff in Hx as (vals & <- & Hin).
    apply in_map_iff in Hin as ([sector vals'] & <- & Hin).
    now apply (Hall sector). }
  exists (if is_zero v then zero else v). split; [|split].
  - unfold compute_average. fold values.
    rewrite <- (mean_constant v values Hvne Vv Hconst).
    destruct values; [congruence|reflexivity].
  - intros Hnan. unfold PyFloat.eqb, SFeqb.
    destruct (is_zero v) eqn:Hz.
    + now rewrite SFcompare_zeros.
    + now rewrite SFcompare_refl.
  - intros Hv. destruct v as [[|]| | |]; cbn [is_zero];
      reflexivity || now destruct Hv.
Qed.

Lemma compute_average_constant_witness :
  compute_average constant_data "CO2" = Ok tenth.
Proof.
  destruct (compute_average_constant constant_data "CO2" tenth)
    as (r & Hr & _ & Hid).
  - unfold constant_data. discriminate.
  - vm_compute. reflexivity.
  - intros sector vals [[= <- <-]|[[= <- <-]|[[= <- <-]|[]]]];
      vm_compute; reflexivity.
  - rewrite Hr. f_equal. apply Hid. unfold tenth. discriminate.
Defined.

(** * The ['.1f'] format *)

Lemma decimal_digit (d : Z) : 0 <= d < 10 -> String.length (decimal d) = 1%nat.
Proof.
  intros H.
  assert (C : d = 0 \/ d = 1 \/ d = 2 \/ d = 3 \/ d = 4 \/
              d = 5 \/ d = 6 \/ d = 7 \/ d = 8 \/ d = 9) by lia.
  repeat (destruct C as [->|C]; [reflexivity|]). now subst.
Qed.

(** A finite float is printed as its magnitude in tenths, rounded to the
    nearest integer [t]: the digits of [t / 10], a point and the one digit
    [t mod 10], after the sign. *)
Lemma format_1f_one_decimal (s : bool) (m : positive) (e : Z) :
  -1074 <= e ->
  exists t,
    format_1f (S754_finite s m e) =
      (sign_str s ++ decimal (t / 10) ++ "." ++ decimal (t mod 10))%string /\
    String.length (decimal (t mod 10)) = 1%nat /\
    2 * Z.abs (t * 2 ^ 1074 - 10 * (Zpos m * 2 ^ (e + 1074))) <= 2 ^ 1074.
Proof.
  intros He. exists (tenths m e). split; [reflexivity|]. split.
  - apply decimal_digit. apply Z.mod_pos_bound. lia.
  - pose proof (pow2_pos 1074 ltac:(lia)) as Hp.
    unfold tenths. destruct e as [|p|p].
    + replace (0 + 1074) with 1074 by lia. change (2 ^ 0) with 1.
      replace (10 * Zpos m * 1 * 2 ^ 1074 - 10 * (Zpos m * 2 ^ 1074))
        with 0 by ring.
      cbn [Z.abs]. lia.
    + rewrite Z.pow_add_r by lia.
      replace (10 * Zpos m * 2 ^ Zpos p * 2 ^ 1074
               - 10 * (Zpos m * (2 ^ Zpos p * 2 ^ 1074)))
        with 0 by ring.
      cbn [Z.abs]. lia.
    + pose proof (pow2_pos (Zpos p) ltac:(lia)) as Hq.
      pose proof (pow2_pos (Zneg p + 1074) ltac:(lia)) as Hr.
      destruct (rhe_cases (10 * Zpos m) (2 ^ Zpos p) Hq) as [_ Hc].
      cbv zeta in Hc.
      assert (E : 2 ^ 1074 = 2 ^ Zpos p * 2 ^ (Zneg p + 1074)).
      { rewrite <- Z.pow_add_r by lia. f_equal. lia. }
      rewrite E.
      remember (round_half_even (10 * Zpos m) (2 ^ Zpos p)) as t.
      remember (2 ^ Zpos p) as u. remember (2 ^ (Zneg p + 1074)) as w.
      replace (t * (u * w) - 10 * (Zpos m * w))
        with ((t * u - 10 * Zpos m) * w) by ring.
      rewrite Z.abs_mul, (Z.abs_eq w) by lia.
      assert (2 * Z.abs (t * u - 10 * Zpos m) <= u) by lia.
      nia.
Qed.

(** * The model at work *)

Example format_1f_ties :
  format_1f (S754_finite false 4503599627370496 (-54)) = "0.2" /\
  format_1f (S754_finite false 7205759403792794 (-57)) = "0.1" /\
  format_1f (S754_finite true 5764607523034235 (-57)) = "-0.0" /\
  format_1f (S754_zero true) = "-0.0" /\
  format_1f (S754_infinity true) = "-inf".
Proof. repeat split; vm_compute; reflexivity. Qed.

Example mean_exact_then_rounded :
  Statistics.mean [tenth; tenth; tenth] = Ok tenth /\
  Statistics.mean [tenth; one] = Ok (S754_finite false 4953959590107546 (-53)) /\
  Statistics.mean [one; one; two] =
    Ok (S754_finite false 6004799503160661 (-52)) /\
  Statistics.mean [S754_zero true; S754_zero true] = Ok zero /\
  Statistics.mean [S754_infinity false; one] = Ok (S754_infinity false) /\
  Statistics.mean [S754_infinity false; S754_infinity true] = Ok S754_nan.
Proof. repeat split; vm_compute; reflexivity. Qed.

Example numeric_keys :
  key_eqb (KInt 1) (KFloat one) = true /\
  key_eqb (KBool true) (KInt 1) = true /\
  key_eqb (KFloat S754_nan) (KFloat S754_nan) = true /\
  key_eqb (KStr "1") (KInt 1) = false.
Proof. repeat split; vm_compute; reflexivity. Qed.

Example example_fetch :
  get_emission_data example_api "2024JJ00" = Ok example_results.
Proof. vm_compute. reflexivity. Qed.

Example example_pipeline :
  compute_average example_data "total" = Ok seven /\
  interpret_data example_data example_averages = Ok example_actions.
Proof. split; vm_compute; reflexivity. Qed.

Example items_without_get :
  get_emission_data
    (fun _ => Response 200 (Some (JObj [("value", JArr [JInt 1])])))
    "2024JJ00" = Raise AttributeError /\
  get_emission_data
    (fun _ => Response 200
       (Some (JObj [("value", JArr [JObj [("Klimaatsector", JArr [])]])])))
    "2024JJ00" = Raise TypeError /\
  get_emission_data (fun _ => Response 200 (Some (JArr [JInt 1])))
    "2024JJ00" = Ok [] /\
  get_emission_data (fun _ => NoResponse) "2024JJ00" = Ok [].
Proof. repeat split; vm_compute; reflexivity. Qed.

(** * The order of floats *)

Lemma magnitude_below (m1 m2 : positive) (e1 e2 : Z) :
  bounded prec emax m1 e1 = true ->
  bounded prec emax m2 e2 = true ->
  e1 < e2 ->
  Zpos m1 * 2 ^ (e1 + 1074) < Zpos m2 * 2 ^ (e2 + 1074).
Proof.
  intros H1 H2 Hlt.
  apply bounded_inv in H1 as (He1 & Hd1 & _).
  apply bounded_inv in H2 as (He2 & _ & Hn2).
  assert (Hd2 : Zpos (digits2_pos m2) = 53) by lia.
  pose proof (digits2_bounds m1) as [_ B1].
  pose proof (digits2_bounds m2) as [B2 _].
  rewrite Hd2 in B2. replace (53 - 1) with 52 in B2 by lia.
  assert (H53 : Zpos m1 < 2 ^ 53).
  { eapply Z.lt_le_trans; [exact B1|]. apply Z.pow_le_mono_r; lia. }
  rewrite pow2_53 in H53.
  assert (Hp : 2 * 2 ^ (e1 + 1074) <= 2 ^ (e2 + 1074)).
  { rewrite <- pow2_succ by lia. apply Z.pow_le_mono_r; lia. }
  pose proof (pow2_pos (e1 + 1074) ltac:(lia)).
  remember (2 ^ (e1 + 1074)) as u. remember (2 ^ (e2 + 1074)) as v.
  remember (2 ^ 52) as w.
  assert (Zpos m1 * u < w * v) by nia. nia.
Qed.

Lemma mul_compare (u a b : Z) : 0 < u -> (a * u ?= b * u) = (a ?= b).
Proof.
  intros Hu. destruct (Z.compare_spec a b) as [->|H|H].
  - apply Z.compare_refl.
  - apply Z.compare_lt_iff. nia.
  - apply Z.compare_gt_iff. nia.
Qed.

(** Valid finite floats compare as their values do. *)
Lemma SFcompare_scaled (x y : float) :
  valid x = true -> valid y = true ->
  is_finite x = true -> is_finite y = true ->
  SFcompare x y = Some (scaled x ?= scaled y).
Proof.
  destruct x as [sx|sx| |sx mx ex], y as [sy|sy| |sy my ey];
    cbn [is_finite valid valid_binary]; try discriminate;
    intros Hx Hy _ _; cbn [SFcompare scaled].
  - reflexivity.
  - pose proof (bounded_inv _ _ Hy) as (He & _).
    pose proof (pow2_pos (ey + 1074) ltac:(lia)).
    f_equal. symmetry.
    destruct sy; unfold cond_Zopp; [apply Z.compare_gt_iff|apply Z.compare_lt_iff];
      nia.
  - pose proof (bounded_inv _ _ Hx) as (He & _).
    pose proof (pow2_pos (ex + 1074) ltac:(lia)).
    f_equal. symmetry.
    destruct sx; unfold cond_Zopp; [apply Z.compare_lt_iff|apply Z.compare_gt_iff];
      nia.
  - pose proof (bounded_inv _ _ Hx) as (Hex & _).
    pose proof (bounded_inv _ _ Hy) as (Hey & _).
    pose proof (pow2_pos (ex + 1074) ltac:(lia)) as Px.
    pose proof (pow2_pos (ey + 1074) ltac:(lia)) as Py.
    change (PosDef.Pos.compare_cont Eq mx my) with (Pos.compare mx my).
    f_equal. symmetry.
    destruct sx, sy; unfold cond_Zopp.
    + destruct (Z.compare_spec ex ey) as [->|Hlt|Hgt].
      * rewrite Z.compare_opp, mul_compare by assumption.
        apply (Z.compare_antisym (Zpos mx) (Zpos my)).
      * apply Z.compare_gt_iff.
        pose proof (magnitude_below mx my ex ey Hx Hy Hlt). lia.
      * apply Z.compare_lt_iff.
        pose proof (magnitude_below my mx ey ex Hy Hx Hgt). lia.
    + apply Z.compare_lt_iff. nia.
    + apply Z.compare_gt_iff. nia.
    + destruct (Z.compare_spec ex ey) as [->|Hlt|Hgt].
      * now rewrite mul_compare by assumption.
      * apply Z.compare_lt_iff. now apply magnitude_below.
      * apply Z.compare_gt_iff. now apply magnitude_below.
Qed.

Lemma gt_scaled (x y : float) :
  valid x = true -> valid y = true ->
  is_finite x = true -> is_finite y = true ->
  gt x y = true <-> scaled y < scaled x.
Proof.
  intros Hx Hy Fx Fy. unfold gt, SFltb.
  rewrite (SFcompare_scaled y x Hy Hx Fy Fx).
  destruct (Z.compare_spec (scaled y) (scaled x)); split;
    intros; try discriminate; try reflexivity; lia.
Qed.

Lemma le_scaled (x y : float) :
  valid x = true -> valid y = true ->
  is_finite x = true -> is_finite y = true ->
  Dashboard.le x y = true <-> scaled x <= scaled y.
Proof.
  intros Hx Hy Fx Fy. unfold Dashboard.le, SFleb.
  rewrite (SFcompare_scaled x y Hx Hy Fx Fy).
  destruct (Z.compare_spec (scaled x) (scaled y)); split;
    intros; try discriminate; try reflexivity; lia.
Qed.

(** The order of the values, in rationals. *)
Lemma exact_value_le (x y : float) :
  valid x = true -> valid y = true ->
  (Statistics.exact_value x <= Statistics.exact_value y)%Q <->
  scaled x <= scaled y.
Proof.
  intros Hx Hy.
  rewrite <- (Qmult_le_r _ _ _ max_value_pos).
  rewrite (exact_value_scaled x Hx), (exact_value_scaled y Hy).
  now rewrite <- Zle_Qle.
Qed.

(** * The mean among the values *)

Lemma mean_nearest (values : list float) :
  values <> [] ->
  forallb valid values = true -> forallb is_finite values = true ->
  exists r,
    Statistics.mean values = Ok r /\ valid r = true /\ is_finite r = true /\
    Spec.nearest r
      (exact_sum values / inject_Z (Z.of_nat (List.length values))).
Proof.
  intros Hne Hv Hf. rewrite (mean_finite values Hne Hf).
  apply float_of_fraction_nearest. now apply mean_in_range.
Qed.

Lemma compute_average_values (data : sector_emissions) (category : string) :
  data <> [] ->
  compute_average data category = Statistics.mean (values_of data category).
Proof.
  intros Hne. unfold compute_average. fold (values_of data category).
  destruct data as [|[sector vals] rest]; [congruence|reflexivity].
Qed.

Lemma count_pos (values : list float) :
  values <> [] -> (0 < inject_Z (Z.of_nat (List.length values)))%Q.
Proof.
  intros Hne. change 0%Q with (inject_Z 0). rewrite <- Zlt_Qlt.
  destruct values; [congruence|cbn [List.length]; lia].
Qed.

Lemma exact_sum_ge (values : list float) (c : Q) :
  (forall x, In x values -> (c <= Statistics.exact_value x)%Q) ->
  (inject_Z (Z.of_nat (List.length values)) * c <= exact_sum values)%Q.
Proof.
  induction values as [|x rest IH]; intros H;
    cbn [exact_sum map fold_right List.length].
  - change (inject_Z (Z.of_nat 0)) with 0%Q. lra.
  - fold (exact_sum rest). rewrite Nat2Z.inj_succ. unfold Z.succ.
    rewrite inject_Z_plus.
    pose proof (H x (or_introl eq_refl)).
    pose proof (IH (fun y Hy => H y (or_intror Hy))).
    change (inject_Z 1) with 1%Q. lra.
Qed.

Lemma exact_sum_le (values : list float) (c : Q) :
  (forall x, In x values -> (Statistics.exact_value x <= c)%Q) ->
  (exact_sum values <= inject_Z (Z.of_nat (List.length values)) * c)%Q.
Proof.
  induction values as [|x rest IH]; intros H;
    cbn [exact_sum map fold_right List.length].
  - change (inject_Z (Z.of_nat 0)) with 0%Q. lra.
  - fold (exact_sum rest). rewrite Nat2Z.inj_succ. unfold Z.succ.
    rewrite inject_Z_plus.
    pose proof (H x (or_introl eq_refl)).
    pose proof (IH (fun y Hy => H y (or_intror Hy))).
    change (inject_Z 1) with 1%Q. lra.
Qed.

(** A nearest float is not below a float under the rational, nor above
    a float over it. *)
Lemma nearest_ge (r lo : float) (q : Q) :
  Spec.nearest r q -> valid lo = true -> is_finite lo = true ->
  (Statistics.exact_value lo <= q)%Q ->
  (Statistics.exact_value lo <= Statistics.exact_value r)%Q.
Proof.
  intros Hn Vlo Flo Hlo. specialize (Hn lo Vlo Flo).
  destruct (Qlt_le_dec (Statistics.exact_value r) (Statistics.exact_value lo))
    as [Hlt|]; [exfalso|assumption].
  rewrite !Qabs_neg in Hn by lra. lra.
Qed.

Lemma nearest_le (r hi : float) (q : Q) :
  Spec.nearest r q -> valid hi = true -> is_finite hi = true ->
  (q <= Statistics.exact_value hi)%Q ->
  (Statistics.exact_value r <= Statistics.exact_value hi)%Q.
Proof.
  intros Hn Vhi Fhi Hhi. specialize (Hn hi Vhi Fhi).
  destruct (Qlt_le_dec (Statistics.exact_value hi) (Statistics.exact_value r))
    as [Hlt|]; [exfalso|assumption].
  rewrite !Qabs_pos in Hn by lra. lra.
Qed.

Lemma exists_least (values : list float) :
  values <> [] ->
  exists x, In x values /\ forall y, In y values -> scaled x <= scaled y.
Proof.
  induction values as [|x rest IH]; [congruence|]. intros _.
  destruct rest as [|x' rest'].
  - exists x. split; [now left|]. intros y [<-|[]]. lia.
  - destruct IH as (m & Hm & Hleast); [discriminate|].
    destruct (Z.le_gt_cases (scaled x) (scaled m)).
    + exists x. split; [now left|].
      intros y [<-|Hy]; [lia|]. specialize (Hleast y Hy). lia.
    + exists m. split; [now right|].
      intros y [<-|Hy]; [lia|]. now apply Hleast.
Qed.

Lemma exists_greatest (values : list float) :
  values <> [] ->
  exists x, In x values /\ forall y, In y values -> scaled y <= scaled x.
Proof.
  induction values as [|x rest IH]; [congruence|]. intros _.
  destruct rest as [|x' rest'].
  - exists x. split; [now left|]. intros y [<-|[]]. lia.
  - destruct IH as (m & Hm & Hmost); [discriminate|].
    destruct (Z.le_gt_cases (scaled m) (scaled x)).
    + exists x. split; [now left|].
      intros y [<-|Hy]; [lia|]. specialize (Hmost y Hy). lia.
    + exists m. split; [now right|].
      intros y [<-|Hy]; [lia|]. now apply Hmost.
Qed.

(** The mean of valid finite floats lies between the least and the
    greatest of them. *)
Lemma mean_between (values : list float) :
  values <> [] ->
  forallb valid values = true -> forallb is_finite values = true ->
  exists r lo hi,
    Statistics.mean values = Ok r /\ valid r = true /\ is_finite r = true /\
    In lo values /\ In hi values /\
    scaled lo <= scaled r <= scaled hi.
Proof.
  intros Hne Hv Hf.
  destruct (mean_nearest values Hne Hv Hf) as (r & Hr & Vr & Fr & Hn).
  destruct (exists_least values Hne) as (lo & Hlo & Hleast).
  destruct (exists_greatest values Hne) as (hi & Hhi & Hmost).
  rewrite forallb_forall in Hv, Hf.
  pose proof (count_pos values Hne) as Hc.
  exists r, lo, hi. repeat split; auto.
  - apply exact_value_le; auto. apply (nearest_ge r lo _ Hn); auto.
    apply Qle_shift_div_l; [exact Hc|]. rewrite Qmult_comm.
    apply exact_sum_ge. intros x Hx. apply exact_value_le; auto.
  - apply exact_value_le; auto. apply (nearest_le r hi _ Hn); auto.
    apply Qle_shift_div_r; [exact Hc|]. rewrite Qmult_comm.
    apply exact_sum_le. intros x Hx. apply exact_value_le; auto.
Qed.


(** * The average among the sector values *)

Lemma values_of_In (data : sector_emissions) (category : string) (x : float) :
  In x (values_of data category) ->
  exists sector vals,
    In (sector, vals) (PyDict.items data) /\
    PyDict.get String.eqb vals category zero = x.
Proof.
  unfold values_of, PyDict.values, PyDict.items. rewrite map_map.
  intros Hx. apply in_map_iff in Hx as ([sector vals] & Hv & Hin).
  now exists sector, vals.
Qed.

Lemma values_of_checks (data : sector_emissions) (category : string) :
  (forall sector vals, In (sector, vals) (PyDict.items data) ->
     valid (PyDict.get String.eqb vals category zero) = true /\
     is_finite (PyDict.get String.eqb vals category zero) = true) ->
  forallb valid (values_of data category) = true /\
  forallb is_finite (values_of data category) = true.
Proof.
  intros H. split; apply forallb_forall; intros x Hx;
    apply values_of_In in Hx as (sector & vals & Hin & <-);
    now apply (H sector vals).
Qed.

Lemma values_of_nonempty (data : sector_emissions) (category : string) :
  data <> [] -> values_of data category <> [].
Proof. destruct data; [congruence|discriminate]. Qed.

(** X1.  Over non-empty data with finite values for the category, the
    average is neither below the least nor above the greatest of the
    sector values. *)
Theorem compute_average_between (data : sector_emissions) (category : string)
    (r : float) :
  data <> [] ->
  (forall sector vals, In (sector, vals) (PyDict.items data) ->
     valid (PyDict.get String.eqb vals category zero) = true /\
     is_finite (PyDict.get String.eqb vals category zero) = true) ->
  compute_average data category = Ok r ->
  exists least_sector least greatest_sector greatest,
    In (least_sector, least) (PyDict.items data) /\
    In (greatest_sector, greatest) (PyDict.items data) /\
    Dashboard.le (PyDict.get String.eqb least category zero) r = true /\
    Dashboard.le r (PyDict.get String.eqb greatest category zero) = true.
Proof.
  intros Hne Hvals Hr.
  destruct (values_of_checks data category Hvals) as [Hv Hf].
  rewrite (compute_average_values data category Hne) in Hr.
  destruct (mean_between _ (values_of_nonempty data category Hne) Hv Hf)
    as (r' & lo & hi & Hr' & Vr & Fr & Hlo & Hhi & Hbetween).
  rewrite Hr in Hr'. injection Hr' as <-.
  rewrite forallb_forall in Hv, Hf.
  pose proof (Hv lo Hlo). pose proof (Hf lo Hlo).
  pose proof (Hv hi Hhi). pose proof (Hf hi Hhi).
  apply values_of_In in Hlo as (s1 & v1 & Hin1 & E1).
  apply values_of_In in Hhi as (s2 & v2 & Hin2 & E2).
  exists s1, v1, s2, v2. rewrite E1, E2.
  repeat split; auto; apply le_scaled; auto; lia.
Qed.

Lemma compute_average_between_witness :
  exists least_sector least greatest_sector greatest,
    In (least_sector, least) (PyDict.items example_data) /\
    In (greatest_sector, greatest) (PyDict.items example_data) /\
    Dashboard.le (PyDict.get String.eqb least "total" zero) seven = true /\
    Dashboard.le seven (PyDict.get String.eqb greatest "total" zero) = true.
Proof.
  apply (compute_average_between example_data "total" seven).
  - unfold example_data. discriminate.
  - intros sector vals [[= <- <-]|[[= <- <-]|[]]]; split; vm_compute; reflexivity.
  - vm_compute. reflexivity.
Defined.

(** The averages that [main] builds hold the three categories. *)
Lemma averages_of_names (data : sector_emissions) (averages : sdict float) :
  Dashboard.averages_of data category_names [] = Ok averages ->
  exists total co2 other,
    compute_average data "total" = Ok total /\
    compute_average data "CO2" = Ok co2 /\
    compute_average data "other" = Ok other /\
    averages = [("total", total); ("CO2", co2); ("other", other)].
Proof.
  unfold category_names. cbn [Dashboard.averages_of].
  destruct (compute_average data "total") as [total|]; [|discriminate].
  cbn [bind].
  destruct (compute_average data "CO2") as [co2|]; [|discriminate].
  cbn [bind].
  destruct (compute_average data "other") as [other|]; [|discriminate].
  cbn [bind]. intros [= <-]. now exists total, co2, other.
Qed.

(** X2.  With the averages that [main] computes from the data itself,
    [interpret_data] returns (the ['total'] entry is there), and over
    non-empty data with finite totals some sector gets no recommendation:
    the recommendations never name every sector. *)
Theorem averages_leave_a_sector (data : sector_emissions)
    (averages : sdict float) :
  data <> [] ->
  PyDict.wf String.eqb data ->
  (forall sector vals, In (sector, vals) (PyDict.items data) ->
     valid (Spec.total_of vals) = true /\
     is_finite (Spec.total_of vals) = true) ->
  Dashboard.averages_of data category_names [] = Ok averages ->
  exists actions,
    interpret_data data averages = Ok actions /\
    exists sector,
      In sector (PyDict.keys data) /\
      PyDict.mem String.eqb actions sector = false.
Proof.
  intros Hne Hwf Hvals Hav.
  apply averages_of_names in Hav as (total & co2 & other & Ht & _ & _ & ->).
  destruct (interpret_loop_total
              [("total", total); ("CO2", co2); ("other", other)]
              total (PyDict.items data) [] eq_refl) as [actions Hact].
  exists actions. split; [exact Hact|].
  destruct (values_of_checks data "total" Hvals) as [Hv Hf].
  rewrite (compute_average_values data "total" Hne) in Ht.
  destruct (mean_between _ (values_of_nonempty data "total" Hne) Hv Hf)
    as (r' & lo & hi & Hr' & Vr & Fr & Hlo & _ & Hbetween & _).
  rewrite Ht in Hr'. injection Hr' as <-.
  rewrite forallb_forall in Hv, Hf.
  pose proof (Hv lo Hlo) as Vlo. pose proof (Hf lo Hlo) as Flo.
  apply values_of_In in Hlo as (sector & vals & Hin & E).
  exists sector. split.
  - unfold PyDict.keys. change sector with (fst (sector, vals)).
    now apply in_map.
  - unfold PyDict.mem.
    rewrite (interpret_data_lookup _ data actions sector Hwf Hact).
    rewrite (In_lookup data sector vals Hwf Hin).
    unfold Spec.above_baseline, Spec.total_of, Spec.baseline_of.
    cbn [PyDict.get PyDict.lookup String.eqb Ascii.eqb Bool.eqb].
    rewrite E.
    destruct (gt lo total) eqn:Hgt; [|reflexivity].
    apply gt_scaled in Hgt; auto. lia.
Qed.

Lemma averages_leave_a_sector_witness :
  exists actions,
    interpret_data example_data
      [("total", seven);
       ("CO2", S754_finite false 5066549580791808 (-50));
       ("other", S754_finite false 5629499534213120 (-51))] = Ok actions /\
    exists sector,
      In sector (PyDict.keys example_data) /\
      PyDict.mem String.eqb actions sector = false.
Proof.
  apply (averages_leave_a_sector example_data).
  - unfold example_data. discriminate.
  - simpl. auto.
  - intros sector vals [[= <- <-]|[[= <- <-]|[]]]; split; vm_compute; reflexivity.
  - vm_compute. reflexivity.
Defined.

(** * The average and the order of the sectors *)

Lemma same_sums_refl (a : Statistics.partial_sums) : same_sums a a.
Proof. split; reflexivity. Qed.

Lemma same_sums_trans (a b c : Statistics.partial_sums) :
  same_sums a b -> same_sums b c -> same_sums a c.
Proof. intros [H1 H2] [H3 H4]. split; [now rewrite H1|congruence]. Qed.

Lemma add_value_same (a b : Statistics.partial_sums) (x : float) :
  same_sums a b ->
  same_sums (Statistics.add_value a x) (Statistics.add_value b x).
Proof.
  destruct a as [qa sa], b as [qb sb]. intros [Hq Hs].
  cbn [fst snd] in Hq, Hs. subst sb. unfold Statistics.add_value.
  destruct (is_finite x); split; cbn [fst snd]; auto.
  now rewrite Hq.
Qed.

(** Adding infinities and NaNs does not depend on the order. *)
Lemma special_add_swap (t x y : float) :
  is_finite x = false -> is_finite y = false ->
  SFadd prec emax (SFadd prec emax t x) y =
  SFadd prec emax (SFadd prec emax t y) x.
Proof.
  destruct x as [sx|[|]| |sx mx ex]; try discriminate;
    destruct y as [sy|[|]| |sy my ey]; try discriminate; intros _ _;
    destruct t as [st|[|]| |st mt et]; reflexivity.
Qed.

Lemma special_add_comm (x y : float) :
  is_finite x = false -> is_finite y = false ->
  SFadd prec emax x y = SFadd prec emax y x.
Proof.
  destruct x as [sx|[|]| |sx mx ex]; try discriminate;
    destruct y as [sy|[|]| |sy my ey]; try discriminate; reflexivity.
Qed.

Lemma add_value_swap (a : Statistics.partial_sums) (x y : float) :
  same_sums (Statistics.add_value (Statistics.add_value a x) y)
            (Statistics.add_value (Statistics.add_value a y) x).
Proof.
  destruct a as [q s]. unfold Statistics.add_value.
  destruct (is_finite x) eqn:Fx, (is_finite y) eqn:Fy;
    rewrite ?Fx, ?Fy; split; cbn [fst snd]; try reflexivity.
  - ring.
  - f_equal. destruct s as [t|].
    + now apply special_add_swap.
    + now apply special_add_comm.
Qed.

Lemma fold_add_value_same (values : list float) :
  forall a b, same_sums a b ->
    same_sums (fold_left Statistics.add_value values a)
              (fold_left Statistics.add_value values b).
Proof.
  induction values as [|x rest IH]; cbn [fold_left]; auto.
  intros a b H. apply IH. now apply add_value_same.
Qed.

Lemma fold_add_value_perm (values values' : list float) :
  Permutation values values' ->
  forall a,
    same_sums (fold_left Statistics.add_value values a)
              (fold_left Statistics.add_value values' a).
Proof.
  induction 1 as [|x l l' _ IH|x y l|l l' l'' _ IH1 _ IH2]; intros a;
    cbn [fold_left].
  - apply same_sums_refl.
  - apply IH.
  - apply fold_add_value_same, add_value_swap.
  - eapply same_sums_trans; [apply IH1|apply IH2].
Qed.

Lemma mean_perm (values values' : list float) :
  Permutation values values' ->
  Statistics.mean values = Statistics.mean values'.
Proof.
  intros Hp. unfold Statistics.mean, Statistics.sum.
  pose proof (fold_add_value_perm _ _ Hp (0%Q, None)) as [Hq Hs].
  pose proof (Permutation_length Hp) as Hlen.
  destruct values as [|x rest], values' as [|x' rest']; try discriminate;
    [reflexivity|].
  destruct (fold_left Statistics.add_value (x :: rest) (0%Q, None))
    as [q s].
  destruct (fold_left Statistics.add_value (x' :: rest') (0%Q, None))
    as [q' s'].
  cbn [fst snd] in Hq, Hs. subst s'. destruct s; [reflexivity|].
  apply float_of_fraction_wd. now rewrite Hq, Hlen.
Qed.

(** X3.  The average does not depend on the order in which the mapping
    holds the sectors. *)
Theorem compute_average_order (data data' : sector_emissions)
    (category : string) :
  Permutation data data' ->
  compute_average data category = compute_average data' category.
Proof.
  intros Hp. unfold compute_average.
  assert (Hv : Permutation (values_of data category)
                           (values_of data' category)).
  { unfold values_of, PyDict.values. now do 2 apply Permutation_map. }
  fold (values_of data category). fold (values_of data' category).
  pose proof (mean_perm _ _ Hv) as Hm.
  pose proof (Permutation_length Hv) as Hlen.
  destruct (values_of data category), (values_of data' category);
    try discriminate; [reflexivity|exact Hm].
Qed.

Lemma compute_average_order_witness :
  compute_average
    [ ("Mobiliteit", [("other", one); ("CO2", tenth)]);
      ("Industrie", [("CO2", S754_infinity false)]);
      ("Landbouw", [("CO2", tenth); ("total", two)]) ] "CO2" =
  compute_average
    [ ("Industrie", [("CO2", S754_infinity false)]);
      ("Landbouw", [("CO2", tenth); ("total", two)]);
      ("Mobiliteit", [("other", one); ("CO2", tenth)]) ] "CO2".
Proof.
  apply compute_average_order.
  apply (Permutation_cons_append [_; _]).
Defined.

(** * More on [interpret_data] *)

Lemma wf_map_filter {V W : Type} (keep : string * V -> bool)
    (f : string * V -> W) (d : sdict V) :
  PyDict.wf String.eqb d ->
  PyDict.wf String.eqb (map (fun item => (fst item, f item)) (filter keep d)).
Proof.
  induction d as [|[k v] rest IH]; cbn [filter map PyDict.wf]; auto.
  intros [Hfresh Hwf]. destruct (keep (k, v)); cbn [map PyDict.wf fst]; auto.
  split; [|now apply IH].
  rewrite lookup_map_filter by assumption. now rewrite Hfresh.
Qed.

(** X4.  The recommendations come in the order in which the data holds
    the sectors, each sector at most once. *)
Theorem interpret_data_order (data : sector_emissions)
    (averages : sdict float) (actions : sdict string) :
  PyDict.wf String.eqb data ->
  interpret_data data averages = Ok actions ->
  PyDict.keys actions =
    PyDict.keys
      (filter (fun item => Spec.above_baseline averages (snd item)) data) /\
  PyDict.wf String.eqb actions.
Proof.
  intros Hwf Hret. rewrite (interpret_data_Ok averages data actions Hwf Hret).
  split.
  - unfold PyDict.keys. rewrite map_map. reflexivity.
  - now apply wf_map_filter.
Qed.

Lemma interpret_data_order_witness :
  PyDict.keys example_actions = ["Industrie"] /\
  PyDict.wf String.eqb example_actions.
Proof.
  apply (interpret_data_order example_data example_averages example_actions).
  - simpl. auto.
  - vm_compute. reflexivity.
Defined.

(** * [create_map] *)

Lemma create_map_loop_markers averages sector_coords items :
  forall m,
    Dashboard.create_map_loop averages sector_coords m items =
    Dashboard.Map (Dashboard.map_location m) (Dashboard.zoom_start m)
      (Dashboard.tiles m)
      (Dashboard.children m
       ++ flat_map (markers_of averages sector_coords) items).
Proof.
  induction items as [|[sector values] rest IH]; intros m;
    cbn [Dashboard.create_map_loop flat_map].
  - rewrite app_nil_r. now destruct m.
  - assert (E : markers_of averages sector_coords (sector, values) =
                 match PyDict.lookup String.eqb sector_coords sector with
                 | Some coord =>
                     [Dashboard.CircleMarker coord 10
                        (colour_of averages values) true
                        (colour_of averages values) Dashboard.lit_0_7
                        (Dashboard.Popup
                           (Dashboard.popup_html sector
                              (Spec.total_of values) values) 300)]
                 | None => []
                 end) by reflexivity.
    rewrite E. clear E.
    destruct (PyDict.lookup String.eqb sector_coords sector) as [coord|].
    + rewrite IH. unfold Dashboard.add_to.
      cbn [Dashboard.map_location Dashboard.zoom_start Dashboard.tiles
           Dashboard.children].
      rewrite <- app_assoc. reflexivity.
    + now rewrite IH.
Qed.

Lemma create_map_children data averages sector_coords :
  Dashboard.children (Dashboard.create_map data averages sector_coords) =
  flat_map (markers_of averages sector_coords) data.
Proof.
  unfold Dashboard.create_map. now rewrite create_map_loop_markers.
Qed.

Lemma flat_map_located {A : Type} (f : Dashboard.circle_marker -> A)
    (g : string * sdict float -> A) averages sector_coords data :
  (forall item coord,
     PyDict.lookup String.eqb sector_coords (fst item) = Some coord ->
     map f (markers_of averages sector_coords item) = [g item]) ->
  map f (flat_map (markers_of averages sector_coords) data) =
  map g (located sector_coords data).
Proof.
  intros H. induction data as [|item rest IH]; cbn [flat_map located filter];
    [reflexivity|].
  rewrite map_app. fold (located sector_coords rest). rewrite IH.
  unfold PyDict.mem.
  destruct (PyDict.lookup String.eqb sector_coords (fst item)) as [coord|] eqn:Hl.
  - now rewrite (H item coord Hl).
  - unfold markers_of. now rewrite Hl.
Qed.

(** X5.  The map has one marker for each sector that has coordinates, at
    those coordinates and in the order of the data, naming the sector in
    its popup; a sector without coordinates gets no marker. *)
Theorem create_map_markers (data : sector_emissions) (averages : sdict float)
    (sector_coords : sdict (float * float)) :
  map (fun marker =>
         (Some (Dashboard.location marker),
          Dashboard.html (Dashboard.marker_popup marker)))
      (Dashboard.children (Dashboard.create_map data averages sector_coords))
  = map (fun item =>
           (PyDict.lookup String.eqb sector_coords (fst item),
            Dashboard.popup_html (fst item) (Spec.total_of (snd item))
              (snd item)))
        (located sector_coords data).
Proof.
  rewrite create_map_children. apply flat_map_located.
  intros item coord Hl. unfold markers_of. now rewrite Hl.
Qed.

(** Python's [<=] and [>] on floats: one of them holds unless a NaN is
    compared. *)
Lemma SFcompare_opp (x y : float) (c : comparison) :
  SFcompare x y = Some c -> SFcompare y x = Some (CompOpp c).
Proof.
  destruct x as [sx|sx| |sx mx ex], y as [sy|sy| |sy my ey];
    cbn [SFcompare]; try discriminate; intros [= <-];
    try reflexivity;
    try (destruct sx, sy; reflexivity); try (now destruct sx);
    try (now destruct sy).
  change (PosDef.Pos.compare_cont Eq mx my) with (Pos.compare mx my).
  change (PosDef.Pos.compare_cont Eq my mx) with (Pos.compare my mx).
  rewrite (Z.compare_antisym ex ey), (Pos.compare_antisym mx my).
  destruct sx, sy; try reflexivity;
    destruct (ex ?= ey); cbn [CompOpp]; try reflexivity;
    destruct (mx ?= my)%positive; reflexivity.
Qed.

Lemma le_or_gt (x y : float) :
  is_nan x = false -> is_nan y = false ->
  Dashboard.le x y = negb (gt x y).
Proof.
  intros Hx Hy. unfold Dashboard.le, gt, SFleb, SFltb.
  destruct (SFcompare x y) as [c|] eqn:Hc.
  - rewrite (SFcompare_opp x y c Hc). now destruct c.
  - destruct x, y; try discriminate; cbn in Hc; try discriminate.
    all: try (destruct s; discriminate); try (destruct s0; discriminate).
    all: destruct s, s0; discriminate.
Qed.

(** X6.  The colours of the map agree with the recommendations: when no
    total and no baseline is a NaN, the marker of a sector is red exactly
    when [interpret_data] has a recommendation for the sector. *)
Theorem create_map_colours (data : sector_emissions) (averages : sdict float)
    (sector_coords : sdict (float * float)) (actions : sdict string) :
  PyDict.wf String.eqb data ->
  interpret_data data averages = Ok actions ->
  is_nan (Spec.baseline_of averages) = false ->
  (forall sector vals, In (sector, vals) (PyDict.items data) ->
     is_nan (Spec.total_of vals) = false) ->
  map Dashboard.color
      (Dashboard.children (Dashboard.create_map data averages sector_coords))
  = map (fun item =>
           if PyDict.mem String.eqb actions (fst item) then "red" else "green")
        (located sector_coords data).
Proof.
  intros Hwf Hret Hb Htot. rewrite create_map_children.
  rewrite (flat_map_located Dashboard.color
             (fun item => colour_of averages (snd item))).
  - apply map_ext_in. intros [sector vals] Hin.
    apply filter_In in Hin as [Hin _]. cbn [fst snd].
    unfold PyDict.mem.
    rewrite (interpret_data_lookup averages data actions sector Hwf Hret).
    rewrite (In_lookup data sector vals Hwf Hin).
    unfold colour_of, Spec.above_baseline.
    rewrite (le_or_gt _ _ (Htot sector vals Hin) Hb).
    now destruct (gt (Spec.total_of vals) (Spec.baseline_of averages)).
  - intros item coord Hl. unfold markers_of. now rewrite Hl.
Qed.

Lemma create_map_colours_witness :
  map Dashboard.color
      (Dashboard.children
         (Dashboard.create_map example_data example_averages
            Dashboard.sector_coords))
  = ["red"; "green"].
Proof.
  rewrite (create_map_colours example_data example_averages
             Dashboard.sector_coords example_actions).
  - reflexivity.
  - simpl. auto.
  - vm_compute. reflexivity.
  - reflexivity.
  - intros sector vals [[= <- <-]|[[= <- <-]|[]]]; reflexivity.
Defined.

(** X7.  With a NaN for the baseline of the totals every marker is red
    although no sector gets a recommendation. *)
Theorem nan_baseline (data : sector_emissions) (averages : sdict float)
    (sector_coords : sdict (float * float)) :
  PyDict.lookup String.eqb averages "total" = Some S754_nan ->
  interpret_data data averages = Ok [] /\
  Forall (fun marker => Dashboard.color marker = "red")
    (Dashboard.children (Dashboard.create_map data averages sector_coords)).
Proof.
  intros Hb.
  assert (Hbase : Spec.baseline_of averages = S754_nan).
  { unfold Spec.baseline_of, PyDict.get. now rewrite Hb. }
  split.
  - unfold interpret_data, PyDict.items.
    generalize (@nil (string * string)).
    induction data as [|[sector vals] rest IH]; intros acc;
      cbn [interpret_loop]; [reflexivity|].
    fold (Spec.baseline_of averages). rewrite Hbase.
    replace (gt (PyDict.get String.eqb vals "total" zero) S754_nan)
      with false by (unfold gt, SFltb; reflexivity).
    apply IH.
  - rewrite create_map_children. apply Forall_forall.
    intros marker Hm. apply in_flat_map in Hm as (item & _ & Hm).
    unfold markers_of in Hm.
    destruct (PyDict.lookup String.eqb sector_coords (fst item));
      [|destruct Hm].
    destruct Hm as [<-|[]]. cbn [Dashboard.color].
    unfold colour_of. rewrite Hbase.
    replace (Dashboard.le (Spec.total_of (snd item)) S754_nan) with false;
      [reflexivity|].
    unfold Dashboard.le, SFleb. now destruct (Spec.total_of (snd item)).
Qed.

Lemma nan_baseline_witness :
  interpret_data example_data [("total", S754_nan)] = Ok [] /\
  Forall (fun marker => Dashboard.color marker = "red")
    (Dashboard.children
       (Dashboard.create_map example_data [("total", S754_nan)]
          Dashboard.sector_coords)).
Proof. apply nan_baseline. reflexivity. Defined.

(** * More on [get_emission_data] *)

Lemma record_raises (c : string) (results : emissions) (item : json) (e : exn) :
  record c results item = Raise e -> e = TypeError \/ e = AttributeError.
Proof.
  destruct item as [| | | | | |o]; cbn [record]; try (intros [= <-]; auto).
  destruct (eq_str (sector_key_of o) total_row); [discriminate|].
  unfold sector_name_for.
  destruct (sector_key_of o); cbn [hash bind]; try discriminate;
    try (intros [= <-]; auto).
  destruct (PyDict.lookup String.eqb sectors s); discriminate.
Qed.

Lemma records_raises (c : string) (items : list json) (e : exn) :
  forall results,
    records c results items = Raise e -> e = TypeError \/ e = AttributeError.
Proof.
  induction items as [|item rest IH]; cbn [records]; [discriminate|].
  intros results. destruct (record c results item) as [r1|e1] eqn:H1;
    cbn [bind].
  - apply IH.
  - intros [= <-]. now apply record_raises in H1.
Qed.

Lemma category_loop_raises api period (entries : sdict string) (e : exn) :
  forall results,
    category_loop api period results entries = Raise e ->
    e = TypeError \/ e = AttributeError.
Proof.
  induction entries as [|[c key] rest IH]; cbn [category_loop];
    [discriminate|].
  intros results.
  destruct (category api period results (c, key)) as [r1|e1] eqn:H1;
    cbn [bind].
  - apply IH.
  - intros [= <-]. unfold category in H1.
    destruct (iterate (fetch api (query period key))) as [items|e2] eqn:Hi;
      cbn [bind] in H1.
    + now apply records_raises in H1.
    + injection H1 as <-.
      destruct (fetch api (query period key)); cbn [iterate] in Hi;
        try discriminate; injection Hi as <-; auto.
Qed.

Lemma category_loop_shape api period (entries : sdict string) :
  forall results results',
    category_loop api period results entries = Ok results' ->
    forall c key, In (c, key) entries ->
      Spec.well_shaped (fetch api (query period key)) = true.
Proof.
  induction entries as [|[c0 key0] rest IH]; cbn [category_loop].
  - intros results results' _ c key [].
  - intros results results'.
    destruct (category api period results (c0, key0)) as [r1|] eqn:H1;
      [|discriminate].
    cbn [bind]. intros H2 c key [[= <- <-]|Hin].
    + apply category_Ok in H1 as [Hi H1].
      unfold Spec.well_shaped. rewrite Hi.
      now apply records_Ok_storable in H1.
    + now apply (IH _ _ H2 c key).
Qed.

(** X8.  [get_emission_data] returns exactly when the data of each of the
    three queries can be iterated and holds only dicts whose sector code
    is the code of the row of totals or hashable; otherwise it raises, and
    what it raises is a [TypeError] or an [AttributeError]. *)
Theorem get_emission_data_outcome (api : provider) (period : string) :
  ((exists results, get_emission_data api period = Ok results) <->
   (forall c key, In (c, key) categories ->
      Spec.well_shaped (fetch api (query period key)) = true)) /\
  (forall e, get_emission_data api period = Raise e ->
     e = TypeError \/ e = AttributeError).
Proof.
  unfold get_emission_data, PyDict.items. split; [split|].
  - intros [results Hret]. now apply (category_loop_shape _ _ _ _ _ Hret).
  - intros Hshape. now apply category_loop_total.
  - intros e. apply category_loop_raises.
Qed.

Lemma fetch_local (api api' : provider) (url : string) :
  api url = api' url -> fetch api url = fetch api' url.
Proof. unfold fetch. now intros ->. Qed.

Lemma category_local (api api' : provider) (period : string)
    (results : emissions) (c key : string) :
  api (query period key) = api' (query period key) ->
  category api period results (c, key) = category api' period results (c, key).
Proof. intros H. unfold category. now rewrite (fetch_local api api' _ H). Qed.

(** X9.  [get_emission_data] consults the provider at the three query
    addresses of the period and nowhere else: providers that answer these
    alike give the same outcome. *)
Theorem get_emission_data_queries (api api' : provider) (period : string) :
  (forall key, In key (PyDict.values categories) ->
     api (query period key) = api' (query period key)) ->
  get_emission_data api period = get_emission_data api' period.
Proof.
  unfold get_emission_data, PyDict.items, PyDict.values.
  generalize (@nil (key * sdict json)).
  induction categories as [|[c key] rest IH]; intros results Hsame;
    cbn [category_loop]; [reflexivity|].
  rewrite (category_local api api' period results c key)
    by (apply Hsame; now left).
  destruct (category api' period results (c, key)); [|reflexivity].
  cbn [bind]. apply IH. intros k Hk. apply Hsame. now right.
Qed.

Lemma get_emission_data_queries_witness :
  get_emission_data
    (fun url =>
       if String.eqb url "https://opendata.cbs.nl/" then Response 200 None
       else example_api url)
    "2024JJ00" = Ok example_results.
Proof.
  rewrite (get_emission_data_queries _ example_api "2024JJ00").
  - vm_compute. reflexivity.
  - intros key [<-|[<-|[<-|[]]]]; vm_compute; reflexivity.
Defined.

(** ** The shape of the result *)

Section SetKeys.
Context {K V : Type}.
Variable eqb : K -> K -> bool.

Lemma In_keys_set (d : PyDict.dict K V) k v k' :
  In k' (PyDict.keys (PyDict.set eqb d k v)) ->
  k' = k \/ In k' (PyDict.keys d).
Proof.
  unfold PyDict.keys.
  induction d as [|[k0 v0] rest IH]; cbn [PyDict.set map fst].
  - intros [<-|[]]. now left.
  - destruct (eqb k0 k); cbn [map fst].
    + intros H. now right.
    + intros [<-|H]; [right; now left|].
      destruct (IH H); [now left|right; now right].
Qed.

Lemma set_nonempty (d : PyDict.dict K V) k v : PyDict.set eqb d k v <> [].
Proof. destruct d as [|[k0 v0] rest]; cbn; [|destruct (eqb k0 k)]; discriminate. Qed.
End SetKeys.

Section ResultShape.
Variable allowed : string -> Prop.

Lemma store_shaped results name c v :
  allowed c -> shaped allowed results ->
  shaped allowed (store results name c v).
Proof.
  intros Hc Hs name' inner' Hin. unfold store in Hin.
  apply In_set in Hin as [->|Hin]; [|now apply (Hs name')].
  split; [apply set_nonempty|].
  intros c' Hc'. apply In_keys_set in Hc' as [->|Hc']; [assumption|].
  unfold PyDict.get in Hc'.
  destruct (PyDict.lookup key_eqb results name) as [inner|] eqn:Hl;
    [|destruct Hc'].
  apply lookup_Some_In in Hl as [k0 Hk0].
  now apply (Hs k0 inner Hk0).
Qed.

Lemma records_shaped c items :
  allowed c ->
  forall results results',
    shaped allowed results -> records c results items = Ok results' ->
    shaped allowed results'.
Proof.
  intros Hc. induction items as [|item rest IH]; cbn [records].
  - now intros results results' Hs [= <-].
  - intros results results' Hs.
    destruct (record c results item) as [r1|] eqn:H1; [|discriminate].
    cbn [bind]. apply IH.
    rewrite (record_spec c results item) in H1
      by (now apply record_Ok_storable in H1).
    injection H1 as <-.
    destruct (Spec.record_name item); [now apply store_shaped|assumption].
Qed.

Lemma category_loop_shaped api period (entries : sdict string) :
  (forall c, In c (PyDict.keys entries) -> allowed c) ->
  forall results results',
    shaped allowed results ->
    category_loop api period results entries = Ok results' ->
    shaped allowed results'.
Proof.
  induction entries as [|[c0 key0] rest IH]; cbn [category_loop]; intros Hall.
  - now intros results results' Hs [= <-].
  - intros results results' Hs.
    destruct (category api period results (c0, key0)) as [r1|] eqn:H1;
      [|discriminate].
    cbn [bind]. apply IH.
    + intros c Hc. apply Hall. now right.
    + apply category_Ok in H1 as [_ H1].
      apply (records_shaped c0 _ (Hall c0 (or_introl eq_refl)) _ _ Hs H1).
Qed.
End ResultShape.

(** X10.  In the mapping returned, every sector has at least one value,
    and values only for the categories ['total'], ['CO2'] and
    ['other']. *)
Theorem results_shape (api : provider) (period : string)
    (results : emissions) :
  get_emission_data api period = Ok results ->
  forall name inner, In (name, inner) (PyDict.items results) ->
    inner <> [] /\
    forall c, In c (PyDict.keys inner) -> In c ["total"; "CO2"; "other"].
Proof.
  intros Hret.
  apply (category_loop_shaped (fun c => In c ["total"; "CO2"; "other"])
           api period categories (fun c Hc => Hc) [] results);
    [|exact Hret].
  intros name inner [].
Qed.

Lemma results_shape_witness :
  [("total", JFloat three)] <> [] /\
  Forall (fun c => In c ["total"; "CO2"; "other"])
    (PyDict.keys [("total", JFloat three)]).
Proof.
  destruct (results_shape example_api "2024JJ00" example_results)
    with (name := KStr "X999") (inner := [("total", JFloat three)])
    as [Hne Hcats].
  - vm_compute. reflexivity.
  - right. now left.
  - split; [exact Hne|]. apply Forall_forall. exact Hcats.
Defined.

(** ** Where the sectors come from *)

Lemma last_value_Some (items : list json) (name : key) :
  (exists v, Spec.last_value items name = Some v) <->
  (exists item k, In item items /\ Spec.record_name item = Some k /\
                  key_eqb k name = true).
Proof.
  induction items as [|item rest IH]; cbn [Spec.last_value].
  - split; [intros [v [=]]|intros (item & k & [] & _)].
  - destruct (Spec.last_value rest name) as [v|].
    + split; [intros _|intros _; now exists v].
      destruct (proj1 IH (ex_intro _ v eq_refl)) as (item' & k & Hin & H).
      exists item', k. split; [now right|exact H].
    + split.
      * destruct (Spec.record_name item) as [k|] eqn:Hn; [|intros [v [=]]].
        destruct (key_eqb k name) eqn:Hk; [|intros [v [=]]].
        intros _. exists item, k. repeat split; auto. now left.
      * intros (item' & k & [<-|Hin] & Hn & Hk).
        -- rewrite Hn, Hk. eauto.
        -- destruct (proj2 IH) as [v [=]]. now exists item', k.
Qed.

(** X11.  A sector name is a key of the mapping returned exactly when
    some record of one of the three queries is stored under it: no sector
    is made up and none is lost. *)
Theorem results_sectors (api : provider) (period : string)
    (results : emissions) (name : key) :
  Spec.valid_provider api ->
  get_emission_data api period = Ok results ->
  valid_key name = true ->
  PyDict.mem key_eqb results name = true <->
  exists c category_key item k,
    In (c, category_key) categories /\
    In item (Spec.items_of api period category_key) /\
    Spec.record_name item = Some k /\ key_eqb k name = true.
Proof.
  intros Hv Hret Hn.
  destruct (get_emission_data_entry api period results Hv Hret)
    as (_ & _ & He).
  pose proof (results_shape_aux := category_loop_shaped
                (fun c => In c (PyDict.keys categories))
                api period categories (fun c Hc => Hc) [] results
                (fun name inner (H : In (name, inner) []) => match H with end)
                Hret).
  unfold PyDict.mem. split.
  - destruct (PyDict.lookup key_eqb results name) as [inner|] eqn:Hl;
      [intros _|discriminate].
    destruct (lookup_Some_In key_eqb results name inner Hl) as [k0 Hk0].
    destruct (results_shape_aux k0 inner Hk0) as [Hne Hcats].
    destruct inner as [|[c0 v0] rest]; [congruence|].
    assert (Hc0 : In c0 (PyDict.keys categories))
      by (apply Hcats; now left).
    apply in_map_iff in Hc0 as ([c key] & Hfst & Hin).
    cbn [fst] in Hfst. subst c.
    destruct (He c0 key Hin) as [_ Hentry].
    assert (E : Spec.entry results name c0 = Some v0).
    { unfold Spec.entry. rewrite Hl. cbn [PyDict.lookup].
      now rewrite String.eqb_refl. }
    rewrite (Hentry name Hn) in E.
    destruct (proj1 (last_value_Some _ name) (ex_intro _ v0 E))
      as (item & k & Hitem & Hname & Hk).
    now exists c0, key, item, k.
  - intros (c & key & item & k & Hin & Hitem & Hname & Hk).
    destruct (He c key Hin) as [_ Hentry].
    destruct (proj2 (last_value_Some (Spec.items_of api period key) name))
      as [v Hv']; [now exists item, k|].
    rewrite <- (Hentry name Hn) in Hv'. unfold Spec.entry in Hv'.
    now destruct (PyDict.lookup key_eqb results name).
Qed.

Lemma results_sectors_witness :
  PyDict.mem key_eqb example_results (KStr "X999") = true.
Proof.
  apply (results_sectors example_api "2024JJ00" example_results (KStr "X999")
           example_api_valid).
  - vm_compute. reflexivity.
  - reflexivity.
  - exists "total", "T001372",
      (JObj [("Klimaatsector", JStr "X999");
             ("EmissieBroeikasgassen_1", JFloat three)]),
      (KStr "X999").
    repeat split.
    + now left.
    + vm_compute. auto.
Defined.

(** X12.  A record without a sector code, or with a null one, is not
    skipped: its value is stored under the key [None]. *)
Theorem missing_code_stored (api : provider) (period : string)
    (results : emissions) (c category_key : string)
    (before after : list json) (o : sdict json) :
  Spec.valid_provider api ->
  get_emission_data api period = Ok results ->
  In (c, category_key) categories ->
  Spec.items_of api period category_key = before ++ JObj o :: after ->
  (PyDict.lookup String.eqb o "Klimaatsector" = None \/
   PyDict.lookup String.eqb o "Klimaatsector" = Some JNull) ->
  (forall item' name', In item' after ->
     Spec.record_name item' = Some name' -> key_eqb name' KNone = false) ->
  PyDict.mem key_eqb results KNone = true /\
  Spec.entry results KNone c = Some (value_of o).
Proof.
  intros Hv Hret Hin Hitems Hcode Hafter.
  destruct (get_emission_data_entry api period results Hv Hret)
    as (_ & _ & He).
  destruct (He c category_key Hin) as [_ Hentry].
  assert (Hname : Spec.record_name (JObj o) = Some KNone).
  { cbn [Spec.record_name]. unfold sector_key_of, PyDict.get.
    destruct Hcode as [-> | ->]; reflexivity. }
  assert (E : Spec.entry results KNone c = Some (value_of o)).
  { rewrite (Hentry KNone eq_refl), Hitems.
    now apply (last_value_app before after (JObj o) KNone KNone). }
  split; [|exact E].
  unfold PyDict.mem. unfold Spec.entry in E.
  now destruct (PyDict.lookup key_eqb results KNone).
Qed.

Lemma missing_code_stored_witness :
  get_emission_data
    (fun _ => Response 200
       (Some (JObj [("value",
                     JArr [JObj [("EmissieBroeikasgassen_1", JFloat two)]])])))
    "2024JJ00"
  = Ok [(KNone, [("total", JFloat two); ("CO2", JFloat two);
                 ("other", JFloat two)])] /\
  Spec.entry
    [(KNone, [("total", JFloat two); ("CO2", JFloat two);
              ("other", JFloat two)])] KNone "CO2" = Some (JFloat two).
Proof.
  split; [vm_compute; reflexivity|].
  apply (missing_code_stored
           (fun _ => Response 200
              (Some (JObj [("value",
                            JArr [JObj [("EmissieBroeikasgassen_1",
                                         JFloat two)]])])))
           "2024JJ00" _ "CO2" "A044109" [] []
           [("EmissieBroeikasgassen_1", JFloat two)]).
  - intros url status_code j [= _ <-]. vm_compute. reflexivity.
  - vm_compute. reflexivity.
  - right. now left.
  - vm_compute. reflexivity.
  - now left.
  - intros item' name' [].
Defined.

(** * The page of [main] *)

Lemma fold_add_value_keeps_special (values : list float) :
  forall q t, exists q' t',
    fold_left Statistics.add_value values (q, Some t) = (q', Some t').
Proof.
  induction values as [|x rest IH]; intros q t; cbn [fold_left].
  - now exists q, t.
  - unfold Statistics.add_value at 2. destruct (is_finite x); apply IH.
Qed.

Lemma fold_add_value_not_finite (values : list float) :
  forallb is_finite values = false ->
  forall acc, exists q' t',
    fold_left Statistics.add_value values acc = (q', Some t').
Proof.
  induction values as [|x rest IH]; cbn [forallb fold_left]; [discriminate|].
  intros H [q special]. unfold Statistics.add_value at 2.
  destruct (is_finite x); cbn [andb] in H.
  - now apply IH.
  - apply fold_add_value_keeps_special.
Qed.

(** [statistics.mean] raises on no list of floats but the empty one. *)
Lemma mean_returns (values : list float) :
  values <> [] -> forallb valid values = true ->
  exists r, Statistics.mean values = Ok r.
Proof.
  intros Hne Hv. destruct (forallb is_finite values) eqn:Hf.
  - destruct (mean_nearest values Hne Hv Hf) as (r & Hr & _). now exists r.
  - destruct (fold_add_value_not_finite values Hf (0%Q, None))
      as (q & t & Hsum).
    exists t. unfold Statistics.mean, Statistics.sum. rewrite Hsum.
    destruct values; [congruence|reflexivity].
Qed.

Lemma compute_average_returns (data : sector_emissions) (category : string) :
  (forall sector vals, In (sector, vals) (PyDict.items data) ->
     valid (PyDict.get String.eqb vals category zero) = true) ->
  exists r, compute_average data category = Ok r.
Proof.
  intros Hvals. destruct data as [|entry rest] eqn:Hdata.
  - now exists zero.
  - rewrite <- Hdata in *.
    assert (Hne : data <> []) by (rewrite Hdata; discriminate).
    rewrite (compute_average_values data category Hne).
    apply mean_returns; [now apply values_of_nonempty|].
    apply forallb_forall. intros x Hx.
    apply values_of_In in Hx as (sector & vals & Hin & <-).
    now apply (Hvals sector vals).
Qed.

(** X13.  Whatever floats the data hold, infinities and NaN included,
    [main] raises nothing from the averages on.  It shows the map, or the
    warning when there is no data, then the three averages, and one line
    for each recommendation of [interpret_data], or a single line saying
    that no sector is above the average. *)
Theorem main_body_page (data : sector_emissions) :
  (forall category sector vals,
     In category category_names -> In (sector, vals) (PyDict.items data) ->
     valid (PyDict.get String.eqb vals category zero) = true) ->
  exists total co2 other actions,
    compute_average data "total" = Ok total /\
    compute_average data "CO2" = Ok co2 /\
    compute_average data "other" = Ok other /\
    interpret_data data
      [("total", total); ("CO2", co2); ("other", other)] = Ok actions /\
    Dashboard.main_body data =
      ((match data with
        | [] =>
            Dashboard.Warning "Kon geen data ophalen van de CBS API. Controleer uw internetverbinding of API‑toegang."
        | _ =>
            Dashboard.Html
              (Dashboard.create_map data
                 [("total", total); ("CO2", co2); ("other", other)]
                 Dashboard.sector_coords) 600 false
        end)
       :: Dashboard.Subheader "Gemiddelde uitstoot per sector"
       :: Dashboard.WriteDict
            [("Totale gassen", (format_1f total ++ " Mt")%string);
             ("CO₂", (format_1f co2 ++ " Mt")%string);
             ("Overige gassen", (format_1f other ++ " Mt")%string)]
       :: Dashboard.Subheader "Actiepunten voor toezichthouders"
       :: match actions with
          | [] =>
              [Dashboard.Write
                 "Geen sectoren boven het gemiddelde voor deze periode."]
          | _ =>
              map (fun entry => Dashboard.Write ("- " ++ snd entry)%string)
                  (PyDict.items actions)
          end,
       None).
Proof.
  intros Hvals.
  destruct (compute_average_returns data "total") as [total Ht];
    [intros sector vals; apply Hvals; now left|].
  destruct (compute_average_returns data "CO2") as [co2 Hc];
    [intros sector vals; apply Hvals; right; now left|].
  destruct (compute_average_returns data "other") as [other Ho];
    [intros sector vals; apply Hvals; right; right; now left|].
  destruct (interpret_loop_total
              [("total", total); ("CO2", co2); ("other", other)]
              total (PyDict.items data) [] eq_refl) as [actions Hact].
  exists total, co2, other, actions.
  repeat (split; [assumption|]).
  unfold Dashboard.main_body. cbn [Dashboard.averages_of].
  rewrite Ht. cbn [bind]. rewrite Hc. cbn [bind]. rewrite Ho. cbn [bind].
  change (PyDict.set String.eqb
            (PyDict.set String.eqb (PyDict.set String.eqb [] "total" total)
               "CO2" co2) "other" other)
    with [("total", total); ("CO2", co2); ("other", other)].
  change (Dashboard.getitem [("total", total); ("CO2", co2); ("other", other)]
            "total") with (Ok total).
  change (Dashboard.getitem [("total", total); ("CO2", co2); ("other", other)]
            "CO2") with (Ok co2).
  change (Dashboard.getitem [("total", total); ("CO2", co2); ("other", other)]
            "other") with (Ok other).
  cbn [bind].
  change (interpret_data data
            [("total", total); ("CO2", co2); ("other", other)] = Ok actions)
    in Hact.
  rewrite Hact.
  destruct actions; destruct data; reflexivity.
Qed.

Lemma main_body_page_witness :
  snd (Dashboard.main_body
         [("Industrie", [("total", S754_infinity false)]);
          ("Landbouw", [("total", seven); ("CO2", S754_nan)])]) = None.
Proof.
  destruct (main_body_page
              [("Industrie", [("total", S754_infinity false)]);
               ("Landbouw", [("total", seven); ("CO2", S754_nan)])])
    as (total & co2 & other & actions & _ & _ & _ & _ & ->); [|reflexivity].
  intros category sector vals [<-|[<-|[<-|[]]]] [[= <- <-]|[[= <- <-]|[]]];
    vm_compute; reflexivity.
Defined.

(** * The catalogue and the coordinates *)

(** The decimal literals of [create_map] and [main] denote the floats
    that the model writes for them. *)
Example decimal_literals :
  map Statistics.float_of_fraction
    [522 # 10; 53 # 10; 7 # 10;
     5191086 # 100000; 447858 # 100000; 53415 # 1000; 683 # 100;
     52370216 # 1000000; 4895168 # 1000000; 5275 # 100; 53 # 10;
     5209074 # 100000; 512142 # 100000; 529896 # 10000; 65649 # 10000]%Q
  = map Ok
      ([Dashboard.lit_52_2; Dashboard.lit_5_3; Dashboard.lit_0_7]
       ++ flat_map (fun entry => [fst (snd entry); snd (snd entry)])
            Dashboard.sector_coords).
Proof. vm_compute. reflexivity. Qed.

Lemma sector_coords_catalogue (sector : string) :
  PyDict.mem String.eqb Dashboard.sector_coords sector =
  existsb (String.eqb sector) (PyDict.values sectors).
Proof.
  unfold PyDict.mem, Dashboard.sector_coords, sectors, PyDict.values.
  cbn [PyDict.lookup map snd existsb].
  rewrite !(String.eqb_sym sector).
  repeat match goal with
         | |- context [String.eqb ?k sector] =>
             destruct (String.eqb k sector); [reflexivity|]
         end.
  reflexivity.
Qed.

(** X14.  The map of [main] has one marker for each sector of the data
    that bears a name of the catalogue of [get_emission_data], and none
    for a sector under another name, such as one stored under its own
    code. *)
Theorem catalogue_sectors_drawn (data : sector_emissions)
    (averages : sdict float) :
  map (fun marker => Dashboard.html (Dashboard.marker_popup marker))
    (Dashboard.children
       (Dashboard.create_map data averages Dashboard.sector_coords)) =
  map (fun item =>
         Dashboard.popup_html (fst item) (Spec.total_of (snd item)) (snd item))
    (filter (fun item =>
               existsb (String.eqb (fst item)) (PyDict.values sectors))
       (PyDict.items data)).
Proof.
  rewrite create_map_children. unfold PyDict.items.
  induction data as [|[sector values] rest IH]; [reflexivity|].
  cbn [flat_map filter fst]. rewrite map_app, IH.
  rewrite <- sector_coords_catalogue.
  unfold markers_of, PyDict.mem. cbn [fst snd].
  destruct (PyDict.lookup String.eqb Dashboard.sector_coords sector);
    reflexivity.
Qed.
